(** * The Twilio / OpenAI realtime bridge of [src/index.js]

    A shallow embedding of the per-connection handlers registered by the
    [/media-stream] websocket route, and of the module-level map
    [activeConversations], followed by the properties of the bridging
    session stated in the specification.

    Conventions of the embedding.
    - The closure variables of one connection ([streamSid],
      [latestMediaTimestamp], [lastAssistantItem], [markQueue],
      [responseStartTimestampTwilio]) and the module-level map are the
      fields of one record, [State]; every handler is a function from a
      state to the list of effects it performs, in order, and the next
      state.
    - JavaScript [null] is [None].  The truthiness tests of the source
      ([if (streamSid)], [!responseStartTimestampTwilio], ...) are kept as
      such: the empty string and the number 0 are falsy.
    - Media timestamps are integers ([Z]) and are subtracted as such.
    - [send] on either socket is recorded as an effect; it does not raise
      in any state the handlers can run in (the only [send] that could meet
      a connecting socket is guarded by [readyState === OPEN]).
    - [./conversation.js] is not among the sources: the tracker is an
      interface, [RealtimeConversation], over which the handlers and their
      properties are parametric.  The tracker that the specification
      describes is the instance [Tracker]; the first scenario of the
      specification, which turns on what the tracker returns, is settled
      with it. *)

From stdpp Require Import gmap strings list.
From Stdlib Require Import ZArith NArith Lia.

Local Open Scope Z_scope.

(** ** JavaScript values as the handlers test them *)

(** [if (s)] for a value that is [null] or a string. *)
Definition truthy (v : option string) : bool :=
  match v with
  | Some s => negb (String.eqb s EmptyString)
  | None => false
  end.

(** [!t] for a value that is [null] or a number. *)
Definition falsy_number (v : option Z) : bool :=
  match v with
  | Some n => n =? 0
  | None => true
  end.

(** ** Messages on the two sockets *)

(** What [JSON.parse(message)] yields on the telephony socket: an object
    with an [event] tag and, depending on the tag, a [media] or a [start]
    member.  A member the sender left out is [None]; reading a field of it
    raises a TypeError. *)
Record Media := { timestamp : Z; payload : string }.
Record Start := { start_streamSid : string }.
Record TwilioData := {
  event : string;
  media : option Media;
  start : option Start
}.

(** What [JSON.parse(data)] yields on the OpenAI socket.  The handler reads
    [type] and [delta]; [item_id] is for the tracker. *)
Record Response := {
  type : string;
  delta : option string;
  item_id : option string
}.

(** A raw websocket message: its text parses, or [JSON.parse] raises. *)
Inductive Raw (A : Type) :=
| Unparsable
| Parsed (data : A).
Arguments Unparsable {A}.
Arguments Parsed {A} data.

(** Frames sent to Twilio by [connection.send]. *)
Inductive TwilioFrame :=
| MediaFrame (streamSid : option string) (payload : string)
| MarkFrame (streamSid : string) (name : string)
| ClearFrame (streamSid : option string).

(** Commands sent to OpenAI by [openAiWs.send]. *)
Inductive OpenAiCommand :=
| SessionUpdate
| InputAudioBufferAppend (audio : string)
| ConversationItemTruncate (item_id : string) (content_index : Z) (audio_end_ms : Z).

Inductive Effect :=
| ConnectionSend (f : TwilioFrame)
| OpenAiSend (c : OpenAiCommand)
| OpenAiCloseCall
| ConsoleLog (msg : string)
| ConsoleError (msg : string).

(** What a list of effects puts on each socket. *)
Definition sent_to_openai (e : list Effect) : list OpenAiCommand :=
  omap (fun x => match x with OpenAiSend c => Some c | _ => None end) e.

Definition sent_to_twilio (e : list Effect) : list TwilioFrame :=
  omap (fun x => match x with ConnectionSend f => Some f | _ => None end) e.

Definition is_truncate (c : OpenAiCommand) : bool :=
  match c with ConversationItemTruncate _ _ _ => true | _ => false end.

Definition is_clear (f : TwilioFrame) : bool :=
  match f with ClearFrame _ => true | _ => false end.

Definition is_mark (f : TwilioFrame) : bool :=
  match f with MarkFrame _ _ => true | _ => false end.

(** The truncate commands, the clear frames and the mark frames of a list
    of effects. *)
Definition truncates (e : list Effect) : list OpenAiCommand :=
  List.filter is_truncate (sent_to_openai e).

Definition clears (e : list Effect) : list TwilioFrame :=
  List.filter is_clear (sent_to_twilio e).

Definition marks (e : list Effect) : list TwilioFrame :=
  List.filter is_mark (sent_to_twilio e).

(** ** Constants *)

Definition LOG_EVENT_TYPES : list string :=
  [ "error"; "response.audio_transcript.done"; "response.content.done";
    "rate_limits.updated"; "response.done"; "input_audio_buffer.committed";
    "input_audio_buffer.speech_stopped"; "input_audio_buffer.speech_started";
    "input_audio_transcription"; "session.created"; "conversation.item.created";
    "conversation.item.input_audio_transcription.completed" ]%string.

Definition SHOW_TIMING_MATH : bool := false.

(** Delay of the eviction timer set by the [close] handler, in ms. *)
Definition EVICTION_DELAY : N := 300000%N.

(** Delay before [initializeSession] once the OpenAI socket is open, in ms. *)
Definition INIT_DELAY : N := 100%N.

(** [includes] on an array of strings. *)
Definition includes (l : list string) (s : string) : bool :=
  existsb (String.eqb s) l.

(** ** The conversation tracker, as an interface *)

Record Item := { id : string }.

(** The outcome of [conversation.processEvent(response)]: it raises, or it
    returns an object whose [item] member is an item or is absent. *)
Inductive Processed :=
| Threw
| Returned (item : option Item).

Class RealtimeConversation (Conv : Type) := {
  (** the tracker after the call (whatever it changed before raising, if it
      raised) and the outcome *)
  processEvent : Conv -> Response -> Conv * Processed
}.

(** ** State *)

Inductive ReadyState := CONNECTING | OPEN | CLOSING | CLOSED.

Definition is_open (r : ReadyState) : bool :=
  match r with OPEN => true | _ => false end.

(** The two callbacks the handlers hand to [setTimeout]. *)
Inductive Callback :=
| InitializeSession
| EvictConversation.

Section Bridge.

Context {Conv : Type} `{RealtimeConversation Conv}.

(** [Buffer.from(s, "base64").toString("base64")], a function of Node. *)
Variable reencode : string -> string.

Record State := {
  (** module level *)
  activeConversations : gmap string nat;
  (** the connection *)
  conversation_ref : nat;      (** identity of the [conversation] object *)
  conversation : Conv;         (** its contents *)
  streamSid : option string;
  latestMediaTimestamp : Z;
  lastAssistantItem : option string;
  markQueue : list string;
  responseStartTimestampTwilio : option Z;
  (** the sockets *)
  openAiWs : ReadyState;
  connection : ReadyState;
  (** the event loop: the clock and the pending timers, by due time *)
  now : N;
  timers : list (N * Callback)
}.

Definition set_activeConversations v (s : State) : State :=
  {| activeConversations := v; conversation_ref := conversation_ref s;
     conversation := conversation s; streamSid := streamSid s;
     latestMediaTimestamp := latestMediaTimestamp s;
     lastAssistantItem := lastAssistantItem s; markQueue := markQueue s;
     responseStartTimestampTwilio := responseStartTimestampTwilio s;
     openAiWs := openAiWs s; connection := connection s;
     now := now s; timers := timers s |}.

Definition set_conversation v (s : State) : State :=
  {| activeConversations := activeConversations s; conversation_ref := conversation_ref s;
     conversation := v; streamSid := streamSid s;
     latestMediaTimestamp := latestMediaTimestamp s;
     lastAssistantItem := lastAssistantItem s; markQueue := markQueue s;
     responseStartTimestampTwilio := responseStartTimestampTwilio s;
     openAiWs := openAiWs s; connection := connection s;
     now := now s; timers := timers s |}.

Definition set_streamSid v (s : State) : State :=
  {| activeConversations := activeConversations s; conversation_ref := conversation_ref s;
     conversation := conversation s; streamSid := v;
     latestMediaTimestamp := latestMediaTimestamp s;
     lastAssistantItem := lastAssistantItem s; markQueue := markQueue s;
     responseStartTimestampTwilio := responseStartTimestampTwilio s;
     openAiWs := openAiWs s; connection := connection s;
     now := now s; timers := timers s |}.

Definition set_latestMediaTimestamp v (s : State) : State :=
  {| activeConversations := activeConversations s; conversation_ref := conversation_ref s;
     conversation := conversation s; streamSid := streamSid s;
     latestMediaTimestamp := v;
     lastAssistantItem := lastAssistantItem s; markQueue := markQueue s;
     responseStartTimestampTwilio := responseStartTimestampTwilio s;
     openAiWs := openAiWs s; connection := connection s;
     now := now s; timers := timers s |}.

Definition set_lastAssistantItem v (s : State) : State :=
  {| activeConversations := activeConversations s; conversation_ref := conversation_ref s;
     conversation := conversation s; streamSid := streamSid s;
     latestMediaTimestamp := latestMediaTimestamp s;
     lastAssistantItem := v; markQueue := markQueue s;
     responseStartTimestampTwilio := responseStartTimestampTwilio s;
     openAiWs := openAiWs s; connection := connection s;
     now := now s; timers := timers s |}.

Definition set_markQueue v (s : State) : State :=
  {| activeConversations := activeConversations s; conversation_ref := conversation_ref s;
     conversation := conversation s; streamSid := streamSid s;
     latestMediaTimestamp := latestMediaTimestamp s;
     lastAssistantItem := lastAssistantItem s; markQueue := v;
     responseStartTimestampTwilio := responseStartTimestampTwilio s;
     openAiWs := openAiWs s; connection := connection s;
     now := now s; timers := timers s |}.

Definition set_responseStartTimestampTwilio v (s : State) : State :=
  {| activeConversations := activeConversations s; conversation_ref := conversation_ref s;
     conversation := conversation s; streamSid := streamSid s;
     latestMediaTimestamp := latestMediaTimestamp s;
     lastAssistantItem := lastAssistantItem s; markQueue := markQueue s;
     responseStartTimestampTwilio := v;
     openAiWs := openAiWs s; connection := connection s;
     now := now s; timers := timers s |}.

Definition set_openAiWs v (s : State) : State :=
  {| activeConversations := activeConversations s; conversation_ref := conversation_ref s;
     conversation := conversation s; streamSid := streamSid s;
     latestMediaTimestamp := latestMediaTimestamp s;
     lastAssistantItem := lastAssistantItem s; markQueue := markQueue s;
     responseStartTimestampTwilio := responseStartTimestampTwilio s;
     openAiWs := v; connection := connection s;
     now := now s; timers := timers s |}.

Definition set_connection v (s : State) : State :=
  {| activeConversations := activeConversations s; conversation_ref := conversation_ref s;
     conversation := conversation s; streamSid := streamSid s;
     latestMediaTimestamp := latestMediaTimestamp s;
     lastAssistantItem := lastAssistantItem s; markQueue := markQueue s;
     responseStartTimestampTwilio := responseStartTimestampTwilio s;
     openAiWs := openAiWs s; connection := v;
     now := now s; timers := timers s |}.

Definition set_now v (s : State) : State :=
  {| activeConversations := activeConversations s; conversation_ref := conversation_ref s;
     conversation := conversation s; streamSid := streamSid s;
     latestMediaTimestamp := latestMediaTimestamp s;
     lastAssistantItem := lastAssistantItem s; markQueue := markQueue s;
     responseStartTimestampTwilio := responseStartTimestampTwilio s;
     openAiWs := openAiWs s; connection := connection s;
     now := v; timers := timers s |}.

Definition set_timers v (s : State) : State :=
  {| activeConversations := activeConversations s; conversation_ref := conversation_ref s;
     conversation := conversation s; streamSid := streamSid s;
     latestMediaTimestamp := latestMediaTimestamp s;
     lastAssistantItem := lastAssistantItem s; markQueue := markQueue s;
     responseStartTimestampTwilio := responseStartTimestampTwilio s;
     openAiWs := openAiWs s; connection := connection s;
     now := now s; timers := v |}.

(** The state when the route handler has run for a new connection: the
    closure variables as initialised at lines 181-185, the OpenAI socket just
    constructed, no timer of this connection yet. *)
Definition connect (registry : gmap string nat) (ref : nat) (conv : Conv) (t : N) : State :=
  {| activeConversations := registry; conversation_ref := ref;
     conversation := conv; streamSid := None;
     latestMediaTimestamp := 0;
     lastAssistantItem := None; markQueue := [];
     responseStartTimestampTwilio := None;
     openAiWs := CONNECTING; connection := OPEN;
     now := t; timers := [] |}.

(** ** The handlers *)

(** A handler returns what it did and the state it leaves. *)
Definition Handler : Type := State -> list Effect * State.

Definition timing_log (msg : string) : list Effect :=
  if SHOW_TIMING_MATH then [ConsoleLog msg] else [].

(** [initializeSession], lines 197-216. *)
Definition initializeSession : Handler := fun s =>
  ([ConsoleLog "Sending session update:"; OpenAiSend SessionUpdate], s).

(** [handleSpeechStartedEvent], lines 218-252.  The guard
    [markQueue.length > 0 && responseStartTimestampTwilio != null] is the
    first pattern. *)
Definition handleSpeechStartedEvent : Handler := fun s =>
  match markQueue s, responseStartTimestampTwilio s with
  | _ :: _, Some responseStart =>
      let elapsedTime := latestMediaTimestamp s - responseStart in
      let truncate :=
        match lastAssistantItem s with
        | Some item =>
            if truthy (Some item)
            then timing_log "Sending truncation event:"
                 ++ [OpenAiSend (ConversationItemTruncate item 0 elapsedTime)]
            else []
        | None => []
        end in
      (timing_log "Calculating elapsed time for truncation"
       ++ truncate
       ++ [ConnectionSend (ClearFrame (streamSid s))],
       set_responseStartTimestampTwilio None
         (set_lastAssistantItem None (set_markQueue [] s)))
  | _, _ => ([], s)
  end.

(** [sendMark], lines 254-264; its [streamSid] is the parameter. *)
Definition sendMark (sid : option string) : Handler := fun s =>
  match sid with
  | Some name =>
      if truthy (Some name)
      then ([ConnectionSend (MarkFrame name "responsePart")],
            set_markQueue (markQueue s ++ ["responsePart"%string]) s)
      else ([], s)
  | None => ([], s)
  end.

(** The [response.audio.delta] branch, lines 288-311; [item] is what the
    tracker returned for this event. *)
Definition onAudioDelta (d : string) (item : option Item) : Handler := fun s =>
  let audioDelta := MediaFrame (streamSid s) (reencode d) in
  let s1 :=
    if falsy_number (responseStartTimestampTwilio s)
    then set_responseStartTimestampTwilio (Some (latestMediaTimestamp s)) s
    else s in
  let s2 :=
    match item with
    | Some it => set_lastAssistantItem (Some (id it)) s1
    | None => s1
    end in
  let '(marks, s3) := sendMark (streamSid s2) s2 in
  (ConnectionSend audioDelta
   :: (if falsy_number (responseStartTimestampTwilio s)
       then timing_log "Setting start timestamp for new response" else [])
   ++ marks, s3).

(** The log of lines 275-283. *)
Definition log_received (response : Response) : list Effect :=
  if includes LOG_EVENT_TYPES (type response)
  then [ConsoleLog ("Received event: " +:+ type response)] else [].

(** [openAiWs.on("message")], lines 271-324.  The [catch] block is empty,
    so an exception ends the handler with whatever was done before it. *)
Definition onOpenAiMessage (data : Raw Response) : Handler := fun s =>
  match data with
  | Unparsable => ([], s)
  | Parsed response =>
      let logged := log_received response in
      let '(conv, outcome) := processEvent (conversation s) response in
      let s0 := set_conversation conv s in
      match outcome with
      | Threw => (logged, s0)
      | Returned item =>
          let '(e1, s1) :=
            match delta response with
            | Some d =>
                if String.eqb (type response) "response.audio.delta" && truthy (Some d)
                then onAudioDelta d item s0 else ([], s0)
            | None => ([], s0)
            end in
          let '(e2, s2) :=
            if String.eqb (type response) "input_audio_buffer.speech_started"
            then handleSpeechStartedEvent s1 else ([], s1) in
          (logged ++ e1 ++ e2, s2)
      end
  end.

(** [connection.on("message")], lines 326-365. *)
Definition onConnectionMessage (message : Raw TwilioData) : Handler := fun s =>
  let failed := ([ConsoleError "Error parsing message:"], s) in
  match message with
  | Unparsable => failed
  | Parsed data =>
      if String.eqb (event data) "media" then
        match media data with
        | None => failed
        | Some m =>
            let s1 := set_latestMediaTimestamp (timestamp m) s in
            (timing_log "Received media message with timestamp"
             ++ (if is_open (openAiWs s1)
                 then [OpenAiSend (InputAudioBufferAppend (payload m))] else []),
             s1)
        end
      else if String.eqb (event data) "start" then
        match start data with
        | None => failed
        | Some st =>
            let sid := start_streamSid st in
            let s1 := set_streamSid (Some sid) s in
            let s2 := set_activeConversations
                        (<[sid := conversation_ref s1]> (activeConversations s1)) s1 in
            ([ConsoleLog "Incoming stream has started"],
             set_latestMediaTimestamp 0 (set_responseStartTimestampTwilio None s2))
        end
      else if String.eqb (event data) "mark" then
        match markQueue s with
        | _ :: rest => ([], set_markQueue rest s)
        | [] => ([], s)
        end
      else ([ConsoleLog "Received non-media event:"], s)
  end.

(** [setTimeout(cb, delay)]: the timer queue is kept by due time, timers
    with the same due time in the order they were set. *)
Fixpoint schedule (t : N * Callback) (q : list (N * Callback)) : list (N * Callback) :=
  match q with
  | [] => [t]
  | x :: q' => if (fst t <? fst x)%N then t :: q else x :: schedule t q'
  end.

Definition setTimeout (cb : Callback) (delay : N) (s : State) : State :=
  set_timers (schedule ((now s + delay)%N, cb) (timers s)) s.

(** [connection.on("close")], lines 367-377.  The event is raised with the
    socket closed; [close()] on an open socket leaves it closing. *)
Definition onConnectionClose : Handler := fun s =>
  let s0 := set_connection CLOSED s in
  let '(e1, s1) :=
    if is_open (openAiWs s0)
    then ([OpenAiCloseCall], set_openAiWs CLOSING s0) else ([], s0) in
  (e1 ++ [ConsoleLog "Client disconnected."],
   setTimeout EvictConversation EVICTION_DELAY s1).

(** [openAiWs.on("open")], lines 266-269; the socket is open when the
    event is raised. *)
Definition onOpenAiOpen : Handler := fun s =>
  ([ConsoleLog "Connected to the OpenAI Realtime API"],
   setTimeout InitializeSession INIT_DELAY (set_openAiWs OPEN s)).

(** [openAiWs.on("close")], lines 379-381; the socket is closed when the
    event is raised. *)
Definition onOpenAiClose : Handler := fun s =>
  ([ConsoleLog "Disconnected from the OpenAI Realtime API"],
   set_openAiWs CLOSED s).

(** [openAiWs.on("error")], lines 383-385. *)
Definition onOpenAiError : Handler := fun s =>
  ([ConsoleError "Error in the OpenAI WebSocket:"], s).

(** The body of a timer callback; the eviction closure (lines 371-375)
    reads [streamSid] when it runs. *)
Definition runCallback (cb : Callback) : Handler := fun s =>
  match cb with
  | InitializeSession => initializeSession s
  | EvictConversation =>
      match streamSid s with
      | Some sid =>
          if truthy (Some sid)
          then ([], set_activeConversations (delete sid (activeConversations s)) s)
          else ([], s)
      | None => ([], s)
      end
  end.

(** ** The event loop *)

(** Run, in order, the timers of [q] that are due at [t]. *)
Fixpoint fire (t : N) (q : list (N * Callback)) (s : State) : list Effect * State :=
  match q with
  | (due, cb) :: q' =>
      if (due <=? t)%N then
        let '(e1, s1) := runCallback cb (set_timers q' s) in
        let '(e2, s2) := fire t q' s1 in
        (e1 ++ e2, s2)
      else ([], s)
  | [] => ([], s)
  end.

(** [ms] milliseconds pass with no socket event. *)
Definition elapse (ms : N) : Handler := fun s =>
  let t := (now s + ms)%N in
  let '(e, s') := fire t (timers s) s in
  (e, set_now t s').

Inductive Event :=
| OpenAiOpen
| OpenAiMessage (data : Raw Response)
| OpenAiClose
| OpenAiError
| ConnectionMessage (message : Raw TwilioData)
| ConnectionClose
| Elapse (ms : N).

Definition step (ev : Event) : Handler :=
  match ev with
  | OpenAiOpen => onOpenAiOpen
  | OpenAiMessage data => onOpenAiMessage data
  | OpenAiClose => onOpenAiClose
  | OpenAiError => onOpenAiError
  | ConnectionMessage message => onConnectionMessage message
  | ConnectionClose => onConnectionClose
  | Elapse ms => elapse ms
  end.

Fixpoint run (evs : list Event) (s : State) : list Effect * State :=
  match evs with
  | [] => ([], s)
  | ev :: evs' =>
      let '(e1, s1) := step ev s in
      let '(e2, s2) := run evs' s1 in
      (e1 ++ e2, s2)
  end.

End Bridge.

Arguments State : clear implicits.

(** ** Traces *)

(** The frames and events the specification names. *)
Definition media_frame (m : Media) : Event :=
  ConnectionMessage (Parsed {| event := "media"; media := Some m; start := None |}).

Definition start_frame (sid : string) : Event :=
  ConnectionMessage
    (Parsed {| event := "start"; media := None;
               start := Some {| start_streamSid := sid |} |}).

Definition audio_delta (item d : string) : Response :=
  {| type := "response.audio.delta"; delta := Some d; item_id := Some item |}.

Definition speech_started : Response :=
  {| type := "input_audio_buffer.speech_started"; delta := None; item_id := None |}.

(** The timestamp an event writes to [latestMediaTimestamp], if it is a
    media frame. *)
Definition media_timestamp (ev : Event) : option Z :=
  match ev with
  | ConnectionMessage (Parsed data) =>
      if String.eqb (event data) "media" then timestamp <$> media data else None
  | _ => None
  end.

Definition media_timestamps (evs : list Event) : list Z := omap media_timestamp evs.

(** [ts] never decreases and starts at [lo] or later. *)
Fixpoint nondecreasing_from (lo : Z) (ts : list Z) : bool :=
  match ts with
  | [] => true
  | t :: ts' => (lo <=? t) && nondecreasing_from t ts'
  end.

(** A message tagged [start]: the only event that writes [streamSid]. *)
Definition is_start (ev : Event) : bool :=
  match ev with
  | ConnectionMessage (Parsed data) => String.eqb (event data) "start"
  | _ => false
  end.

Definition is_close (ev : Event) : bool :=
  match ev with ConnectionClose => true | _ => false end.

(** An event of the telephony socket. *)
Definition on_connection (ev : Event) : bool :=
  match ev with ConnectionMessage _ | ConnectionClose => true | _ => false end.

Definition no_start (evs : list Event) : bool := forallb (fun ev => negb (is_start ev)) evs.
Definition no_close (evs : list Event) : bool := forallb (fun ev => negb (is_close ev)) evs.
Definition none_on_connection (evs : list Event) : bool :=
  forallb (fun ev => negb (on_connection ev)) evs.

(** The time a trace takes. *)
Definition elapsed (evs : list Event) : N :=
  foldr (fun ev acc => match ev with Elapse ms => (ms + acc)%N | _ => acc end) 0%N evs.

(** The timer queue is ordered by due time. *)
Fixpoint by_due_time (q : list (N * Callback)) : Prop :=
  match q with
  | [] => True
  | x :: q' => (forall y, In y q' -> (fst x <= fst y)%N) /\ by_due_time q'
  end.

(** The timers of [q] that are still pending once those due at [t] have run. *)
Fixpoint remaining (t : N) (q : list (N * Callback)) : list (N * Callback) :=
  match q with
  | (due, cb) :: q' => if (due <=? t)%N then remaining t q' else q
  | [] => []
  end.

(** While the telephony socket is open: the timer queue is in order and
    holds no eviction, and the session is in the registry under its
    [streamSid], if it has one. *)
Definition registered {Conv} (s : State Conv) : Prop :=
  by_due_time (timers s) /\
  (forall due, ~ In (due, EvictConversation) (timers s)) /\
  (forall sid, streamSid s = Some sid ->
               activeConversations s !! sid = Some (conversation_ref s)).

(** After the telephony socket has closed: until [due] the eviction is
    pending and the session is in the registry under [sid]; from [due] on it
    is not. *)
Definition in_grace {Conv} (sid : string) (ref : nat) (due : N) (s : State Conv) : Prop :=
  streamSid s = Some sid /\
  by_due_time (timers s) /\
  (((now s < due)%N /\
    In (due, EvictConversation) (timers s) /\
    (forall d, In (d, EvictConversation) (timers s) -> d = due) /\
    activeConversations s !! sid = Some ref)
   \/
   ((due <= now s)%N /\ activeConversations s !! sid = None)).

(** The cut-off of a truncate command is not negative. *)
Definition cutoff_nonneg (c : OpenAiCommand) : Prop :=
  match c with
  | ConversationItemTruncate _ _ audio_end_ms => 0 <= audio_end_ms
  | _ => True
  end.

(** The clock invariant: [latestMediaTimestamp] lies between 0 and the last
    media timestamp [m], and a recorded response start is not after it. *)
Definition clock_inv {Conv} (s : State Conv) (m : Z) : Prop :=
  0 <= latestMediaTimestamp s /\ latestMediaTimestamp s <= m /\
  match responseStartTimestampTwilio s with
  | Some r => r <= latestMediaTimestamp s
  | None => True
  end.

(** An instance for the closed examples of calls in progress.  It keeps no
    transcript and returns, for every event, the item whose id the event
    carries: it stands for a tracker to which every item the events name is
    already known.  It is not the tracker of the specification, which is
    [Tracker] below and forgets nothing but reports only known items. *)
#[global] Instance Reporting : RealtimeConversation unit :=
  {| processEvent c r := (c, Returned (Build_Item <$> item_id r)) |}.

(** A fresh connection, with an empty registry, at time 0. *)
Definition fresh : State unit := connect ∅ 0%nat tt 0%N.

(** In the examples the re-encoding of a payload is the identity, as it is
    on canonical base64. *)
Definition canonical (payload : string) : string := payload.

(** A call in progress: the stream "CA1" has started, the OpenAI socket is
    open and the last media frame was stamped 1000. *)
Definition at_1000 : State unit :=
  snd (run canonical
         [ OpenAiOpen; start_frame "CA1";
           media_frame {| timestamp := 1000; payload := "a" |} ] fresh).

(** The same call while a response for item "I1", begun at 1000, is playing
    and the clock shows 1800. *)
Definition playing : State unit :=
  snd (run canonical
         [ OpenAiMessage (Parsed (audio_delta "I1" "AAAA"));
           media_frame {| timestamp := 1800; payload := "a" |} ] at_1000).

(** The first scenario of the specification. *)
Definition scenario_zero : list Event :=
  [ start_frame "CA1";
    media_frame {| timestamp := 0; payload := "a" |};
    OpenAiMessage (Parsed (audio_delta "I1" "AAAA"));
    OpenAiMessage (Parsed speech_started) ].

(** A response whose first chunk arrives while the clock still shows 0,
    and its second chunk after a media frame stamped 20. *)
Definition first_chunk_at_zero : list Event :=
  [ start_frame "CA1";
    OpenAiMessage (Parsed (audio_delta "I1" "AAAA")) ].

Definition second_chunk_at_20 : list Event :=
  [ media_frame {| timestamp := 20; payload := "a" |};
    OpenAiMessage (Parsed (audio_delta "I1" "BBBB")) ].

(** ** Further observations on traces *)

(** The audio appended to OpenAI's input buffer, the [session.update]
    commands, and the media frames sent to Twilio, in a list of effects. *)
Definition appends (e : list Effect) : list string :=
  omap (fun c => match c with InputAudioBufferAppend a => Some a | _ => None end)
       (sent_to_openai e).

Definition is_session_update (c : OpenAiCommand) : bool :=
  match c with SessionUpdate => true | _ => false end.

Definition session_updates (e : list Effect) : list OpenAiCommand :=
  List.filter is_session_update (sent_to_openai e).

Definition is_media_out (f : TwilioFrame) : bool :=
  match f with MediaFrame _ _ => true | _ => false end.

Definition medias (e : list Effect) : list TwilioFrame :=
  List.filter is_media_out (sent_to_twilio e).

(** The payload an event brings from the caller, if it is a media frame,
    and the [streamSid] it sets, if it is a start frame. *)
Definition media_payload (ev : Event) : option string :=
  match ev with
  | ConnectionMessage (Parsed data) =>
      if String.eqb (event data) "media" then payload <$> media data else None
  | _ => None
  end.

Definition media_payloads (evs : list Event) : list string := omap media_payload evs.

Definition start_sid (ev : Event) : option string :=
  match ev with
  | ConnectionMessage (Parsed data) =>
      if String.eqb (event data) "start" then start_streamSid <$> start data else None
  | _ => None
  end.

Definition start_sids (evs : list Event) : list string := omap start_sid evs.

(** Kinds of event. *)
Definition is_openai_open (ev : Event) : bool :=
  match ev with OpenAiOpen => true | _ => false end.

Definition is_openai_close (ev : Event) : bool :=
  match ev with OpenAiClose => true | _ => false end.

Definition is_openai_message (ev : Event) : bool :=
  match ev with OpenAiMessage _ => true | _ => false end.

Definition is_connection_message (ev : Event) : bool :=
  match ev with ConnectionMessage _ => true | _ => false end.

Definition no_openai_open (evs : list Event) : bool :=
  forallb (fun ev => negb (is_openai_open ev)) evs.

Definition no_openai_message (evs : list Event) : bool :=
  forallb (fun ev => negb (is_openai_message ev)) evs.

Definition no_connection_message (evs : list Event) : bool :=
  forallb (fun ev => negb (is_connection_message ev)) evs.

(** Nothing in the trace takes the OpenAI socket out of [OPEN]. *)
Definition stays_open (evs : list Event) : bool :=
  forallb (fun ev => negb (is_openai_close ev) && negb (is_close ev)) evs.

(** The acknowledgment Twilio sends when it has played up to a mark. *)
Definition mark_ack : Event :=
  ConnectionMessage (Parsed {| event := "mark"; media := None; start := None |}).

(** The guard of line 288: the event is an audio delta with a payload. *)
Definition is_audio_delta (response : Response) : bool :=
  String.eqb (type response) "response.audio.delta" && truthy (delta response).

(** No event of the trace is an audio delta with a payload. *)
Definition no_audio_delta (evs : list Event) : bool :=
  forallb (fun ev => match ev with
                     | OpenAiMessage (Parsed response) => negb (is_audio_delta response)
                     | _ => true
                     end) evs.

(** The guard of [handleSpeechStartedEvent] fails. *)
Definition disarmed {Conv} (s : State Conv) : Prop :=
  markQueue s = [] \/ responseStartTimestampTwilio s = None.

(** An OpenAI message that parses. *)
Definition openai_message (response : Response) : Event :=
  OpenAiMessage (Parsed response).

(** No start frame of the trace sets [streamSid] to [k]. *)
Definition never_started (k : string) (evs : list Event) : bool :=
  forallb (fun sid => negb (String.eqb sid k)) (start_sids evs).

(** The [streamSid] a frame sent to Twilio carries. *)
Definition frame_streamSid (f : TwilioFrame) : option string :=
  match f with
  | MediaFrame sid _ => sid
  | MarkFrame sid _ => Some sid
  | ClearFrame sid => sid
  end.

(** The media frame an audio delta becomes on a connection whose
    [streamSid] is [sid]. *)
Definition delta_out (reencode : string -> string) (sid : option string)
    (ev : Event) : option TwilioFrame :=
  match ev with
  | OpenAiMessage (Parsed response) =>
      if is_audio_delta response
      then Some (MediaFrame sid (reencode (default EmptyString (delta response))))
      else None
  | _ => None
  end.

(** A second tracker for the examples: it raises on an event that names no
    item, and reports the item otherwise. *)
Definition Rejecting : RealtimeConversation unit :=
  {| processEvent c r :=
       match item_id r with
       | Some i => (c, Returned (Some {| id := i |}))
       | None => (c, Threw)
       end |}.

(** A tracker that returns for every event. *)
Definition never_throws (Conv : Type) `{RealtimeConversation Conv} : Prop :=
  forall (c : Conv) (response : Response),
    exists c' item, processEvent c response = (c', Returned item).

(** The clock after a run of media frames. *)
Definition clock_after (ms : list Media) (t : Z) : Z :=
  List.last (map timestamp ms) t.

(** The well-formed truncate commands: a non-empty item id and content
    index 0. *)
Definition truncate_shape (c : OpenAiCommand) : Prop :=
  match c with
  | ConversationItemTruncate item content_index _ =>
      item <> EmptyString /\ content_index = 0
  | _ => True
  end.

(** The number of [initializeSession] timers among those of [q] that run
    when the clock reaches [t]. *)
Fixpoint fired_inits (t : N) (q : list (N * Callback)) : nat :=
  match q with
  | (due, cb) :: q' =>
      if (due <=? t)%N
      then (match cb with InitializeSession => 1 | EvictConversation => 0 end
            + fired_inits t q')%nat
      else 0%nat
  | [] => 0%nat
  end.

(** The [initializeSession] timers of a queue. *)
Definition pending_inits (q : list (N * Callback)) : nat :=
  length (List.filter
            (fun x => match snd x with InitializeSession => true | _ => false end) q).

(** After the OpenAI socket has opened: until [due] exactly one
    [initializeSession] is pending and [sent] is 0; from [due] on none is
    pending and [sent] is 1. *)
Definition configuring {Conv} (due : N) (sent : nat) (s : State Conv) : Prop :=
  by_due_time (timers s) /\
  (((now s < due)%N /\
    pending_inits (timers s) = 1%nat /\
    (forall d, In (d, InitializeSession) (timers s) -> d = due) /\
    sent = 0%nat)
   \/
   ((due <= now s)%N /\
    pending_inits (timers s) = 0%nat /\
    sent = 1%nat)).

(** [GET /active-calls], lines 74-89.  [Array.from] of the keys of a Map
    does not raise, so the [catch] branch is not reached.  The keys of a
    JavaScript Map come in insertion order; the registry is a finite map, so
    [calls] is the list of keys up to order. *)
Record ActiveCallsReply := {
  success : bool;
  totalCalls : nat;
  calls : list string
}.

Definition activeCallsRoute (registry : gmap string nat) : ActiveCallsReply :=
  let activeCalls := (map_to_list registry).*1 in
  {| success := true; totalCalls := length activeCalls; calls := activeCalls |}.

(** The guard of [handleSpeechStartedEvent] as a number: 1 when it holds,
    so that an interruption can fire, and 0 when it fails. *)
Definition armed {Conv} (s : State Conv) : nat :=
  match markQueue s, responseStartTimestampTwilio s with
  | _ :: _, Some _ => 1%nat
  | _, _ => 0%nat
  end.

(** The number of audio deltas with a payload that a trace delivers. *)
Definition audio_deltas (evs : list Event) : nat :=
  length (List.filter
            (fun ev => match ev with
                       | OpenAiMessage (Parsed response) => is_audio_delta response
                       | _ => false
                       end) evs).

(** ** The conversation tracker of the specification *)

(** Modelled from the spec: [./conversation.js], the module of
    [RealtimeConversation], is not among the sources.  The definitions from
    here to [Tracker] follow section 4.4 of the specification.  An item has
    the status "in-progress | completed | truncated". *)
Inductive ItemStatus := InProgress | Completed | Truncated.

(** Modelled from the spec: a ConversationItem, with its id, its status and
    its content: "text, transcript-of-audio, and a boolean flag for audio
    presence".  [role], [kind] and [updatedAt] are left out: an event of the
    embedding carries neither a role nor a kind, the tracker has no clock
    here, and the handlers read nothing of an item but [item.id]. *)
Record ConversationItem := {
  item_ident : string;
  item_status : ItemStatus;
  item_text : string;
  item_transcript : string;
  item_hasAudio : bool
}.

(** Modelled from the spec: the tracker "maintains a mapping from
    AI-assigned item id to ConversationItem, and a separate
    insertion-ordered list for stable enumeration".  Both are one list here,
    in insertion order; the mapping is [lookup_item] on it. *)
Definition Transcript : Type := list ConversationItem.

(** Modelled from the spec: the transcript of [new RealtimeConversation()],
    the "empty conversation". *)
Definition new_conversation : Transcript := [].

(** Modelled from the spec: the mapping from item id to item. *)
Definition lookup_item (i : string) (c : Transcript) : option ConversationItem :=
  List.find (fun it => String.eqb (item_ident it) i) c.

(** Modelled from the spec: an update of the item [i], in its place
    ("append/update only, never reordered or deleted"). *)
Definition update_item (i : string) (f : ConversationItem -> ConversationItem)
    (c : Transcript) : Transcript :=
  map (fun it => if String.eqb (item_ident it) i then f it else it) c.

(** Modelled from the spec: the item an item-created event inserts, "with
    status in-progress". *)
Definition new_item (i : string) : ConversationItem :=
  {| item_ident := i; item_status := InProgress; item_text := EmptyString;
     item_transcript := EmptyString; item_hasAudio := false |}.

(** Modelled from the spec: the kinds of event that section 4.4 tells apart.
    The specification names the kinds and not their [type] strings; the
    strings of [kind_of] are those of the realtime protocol that
    [src/index.js] speaks, of which the source spells out
    "conversation.item.created" (line 63) and "response.audio.delta"
    (line 288). *)
Inductive EventKind :=
| ItemCreated
| TextDelta
| TranscriptDelta
| AudioDelta
| ItemCompleted
| ItemTruncated
| OtherEvent.

(** Modelled from the spec: the kind of an event, from its [type]. *)
Definition kind_of (type : string) : EventKind :=
  if String.eqb type "conversation.item.created" then ItemCreated
  else if String.eqb type "response.text.delta" then TextDelta
  else if String.eqb type "response.audio_transcript.delta" then TranscriptDelta
  else if String.eqb type "response.audio.delta" then AudioDelta
  else if String.eqb type "response.output_item.done" then ItemCompleted
  else if String.eqb type "conversation.item.truncated" then ItemTruncated
  else OtherEvent.

(** Modelled from the spec: what an update event does to the item it names.
    "On transcript/content-delta events, append to the corresponding item's
    text/transcript content"; an audio delta marks audio as present; "on
    item-completed/truncated events, update status accordingly". *)
Definition apply_event (k : EventKind) (d : option string)
    (it : ConversationItem) : ConversationItem :=
  match k with
  | TextDelta =>
      {| item_ident := item_ident it; item_status := item_status it;
         item_text := item_text it +:+ default EmptyString d;
         item_transcript := item_transcript it; item_hasAudio := item_hasAudio it |}
  | TranscriptDelta =>
      {| item_ident := item_ident it; item_status := item_status it;
         item_text := item_text it;
         item_transcript := item_transcript it +:+ default EmptyString d;
         item_hasAudio := item_hasAudio it |}
  | AudioDelta =>
      {| item_ident := item_ident it; item_status := item_status it;
         item_text := item_text it; item_transcript := item_transcript it;
         item_hasAudio := true |}
  | ItemCompleted =>
      {| item_ident := item_ident it; item_status := Completed;
         item_text := item_text it; item_transcript := item_transcript it;
         item_hasAudio := item_hasAudio it |}
  | ItemTruncated =>
      {| item_ident := item_ident it; item_status := Truncated;
         item_text := item_text it; item_transcript := item_transcript it;
         item_hasAudio := item_hasAudio it |}
  | ItemCreated | OtherEvent => it
  end.

(** Modelled from the spec: [processEvent] of the tracker, which "returns the
    affected item (if any)".  "On an item-created event, insert a new item";
    an id that is created again keeps its place and starts over, as an
    insertion into a mapping does.  An update event changes the item it
    names and returns it.  "Unknown item ids referenced by an update event
    are ignored ... treat as no-op, not fatal": the transcript is left as it
    is, no item is returned and nothing is raised.  So it is for an event
    that names no item and for an event of any other kind. *)
Definition track (c : Transcript) (response : Response) : Transcript * Processed :=
  match item_id response with
  | None => (c, Returned None)
  | Some i =>
      match kind_of (type response) with
      | OtherEvent => (c, Returned None)
      | ItemCreated =>
          match lookup_item i c with
          | None => (c ++ [new_item i], Returned (Some {| id := i |}))
          | Some _ =>
              (update_item i (fun _ => new_item i) c, Returned (Some {| id := i |}))
          end
      | k =>
          match lookup_item i c with
          | Some _ =>
              (update_item i (apply_event k (delta response)) c,
               Returned (Some {| id := i |}))
          | None => (c, Returned None)
          end
      end
  end.

(** Modelled from the spec: the tracker of section 4.4 as an instance of the
    interface the handlers call.  It is found where the tracker's state is a
    [Transcript]. *)
#[global] Instance Tracker : RealtimeConversation Transcript | 100 :=
  {| processEvent := track |}.

(** The item-created event for item [i]. *)
Definition item_created (i : string) : Response :=
  {| type := "conversation.item.created"; delta := None; item_id := Some i |}.

(** A connection with the tracker of the specification, once its OpenAI
    socket has opened and the session is configured; nothing has been said
    yet. *)
Definition listening : State Transcript :=
  snd (run canonical [OpenAiOpen; Elapse 100]
           (connect ∅ 0%nat new_conversation 0%N)).

Section Properties.

Context {Conv : Type} `{RealtimeConversation Conv}.
Variable reencode : string -> string.

Implicit Types (s : State Conv) (evs : list Event).

(** ** Properties of the handlers *)

Lemma sent_to_openai_app (a b : list Effect) :
  sent_to_openai (a ++ b) = sent_to_openai a ++ sent_to_openai b.
Proof. apply omap_app. Qed.

Lemma sent_to_twilio_app (a b : list Effect) :
  sent_to_twilio (a ++ b) = sent_to_twilio a ++ sent_to_twilio b.
Proof. apply omap_app. Qed.

Lemma truncates_app (a b : list Effect) :
  truncates (a ++ b) = truncates a ++ truncates b.
Proof. unfold truncates. rewrite sent_to_openai_app. apply List.filter_app. Qed.

Lemma clears_app (a b : list Effect) : clears (a ++ b) = clears a ++ clears b.
Proof. unfold clears. rewrite sent_to_twilio_app. apply List.filter_app. Qed.

Lemma marks_app (a b : list Effect) : marks (a ++ b) = marks a ++ marks b.
Proof. unfold marks. rewrite sent_to_twilio_app. apply List.filter_app. Qed.

Lemma log_received_openai response : sent_to_openai (log_received response) = [].
Proof. unfold log_received. by destruct (includes _ _). Qed.

Lemma log_received_twilio response : sent_to_twilio (log_received response) = [].
Proof. unfold log_received. by destruct (includes _ _). Qed.

Lemma run_app evs1 evs2 s :
  run reencode (evs1 ++ evs2) s =
  (fst (run reencode evs1 s) ++ fst (run reencode evs2 (snd (run reencode evs1 s))),
   snd (run reencode evs2 (snd (run reencode evs1 s)))).
Proof.
  revert s. induction evs1 as [|ev evs1 IH]; intros s; simpl.
  - destruct (run reencode evs2 s); reflexivity.
  - destruct (step reencode ev s) as [e1 s1]. rewrite IH.
    destruct (run reencode evs1 s1) as [e2 s2]; simpl.
    destruct (run reencode evs2 s2) as [e3 s3]; simpl.
    by rewrite app_assoc.
Qed.

(** The interruption, when it fires: what it sends and what it leaves. *)
Lemma handleSpeechStartedEvent_fires s (r : Z) :
  markQueue s <> [] ->
  responseStartTimestampTwilio s = Some r ->
  handleSpeechStartedEvent s =
  ((if truthy (lastAssistantItem s)
    then [OpenAiSend (ConversationItemTruncate
                        (default EmptyString (lastAssistantItem s)) 0
                        (latestMediaTimestamp s - r))]
    else [])
   ++ [ConnectionSend (ClearFrame (streamSid s))],
   set_responseStartTimestampTwilio None
     (set_lastAssistantItem None (set_markQueue [] s))).
Proof.
  intros Hq Hr. unfold handleSpeechStartedEvent. rewrite Hr.
  destruct (markQueue s) as [|m q]; [done|].
  destruct (lastAssistantItem s) as [item|]; simpl; [|done].
  by destruct (negb (String.eqb item EmptyString)).
Qed.

Lemma handleSpeechStartedEvent_idle s :
  markQueue s = [] \/ responseStartTimestampTwilio s = None ->
  handleSpeechStartedEvent s = ([], s).
Proof.
  intros [Hq|Hr]; unfold handleSpeechStartedEvent.
  - by rewrite Hq.
  - rewrite Hr. by destruct (markQueue s).
Qed.

(** C2: an interruption that fires leaves [markQueue] empty and
    [lastAssistantItem] and [responseStartTimestampTwilio] null, and sends
    exactly one clear frame to Twilio, carrying the session's [streamSid],
    whatever [lastAssistantItem] was. *)
Theorem interruption_resets_and_clears s :
  markQueue s <> [] ->
  responseStartTimestampTwilio s <> None ->
  let '(e, s') := handleSpeechStartedEvent s in
  markQueue s' = [] /\
  lastAssistantItem s' = None /\
  responseStartTimestampTwilio s' = None /\
  sent_to_twilio e = [ClearFrame (streamSid s)] /\
  streamSid s' = streamSid s.
Proof.
  intros Hq Hr.
  destruct (responseStartTimestampTwilio s) as [r|] eqn:E; [|done].
  rewrite (handleSpeechStartedEvent_fires s r Hq E).
  repeat split. rewrite sent_to_twilio_app.
  by destruct (truthy (lastAssistantItem s)).
Qed.

(** *** The interruption when nothing is playing *)

(** C3: with [markQueue] empty or [responseStartTimestampTwilio] null, the
    speech-started handler does nothing at all, and a speech-started event
    sends nothing on either socket and leaves [markQueue],
    [lastAssistantItem], [responseStartTimestampTwilio],
    [latestMediaTimestamp] and [streamSid] as they were. *)
Theorem speech_started_idle_is_noop s :
  markQueue s = [] \/ responseStartTimestampTwilio s = None ->
  handleSpeechStartedEvent s = ([], s) /\
  forall response,
    type response = "input_audio_buffer.speech_started"%string ->
    let '(e, s') := onOpenAiMessage reencode (Parsed response) s in
    sent_to_openai e = [] /\ sent_to_twilio e = [] /\
    markQueue s' = markQueue s /\
    lastAssistantItem s' = lastAssistantItem s /\
    responseStartTimestampTwilio s' = responseStartTimestampTwilio s /\
    latestMediaTimestamp s' = latestMediaTimestamp s /\
    streamSid s' = streamSid s.
Proof.
  intros Hidle. split; [by apply handleSpeechStartedEvent_idle|].
  intros response Hty. unfold onOpenAiMessage. rewrite Hty. simpl.
  pose proof (log_received_openai response) as Hlo.
  pose proof (log_received_twilio response) as Hlt.
  destruct (processEvent (conversation s) response) as [conv [|item]]; [done|].
  destruct (delta response) as [d|]; simpl;
    rewrite (handleSpeechStartedEvent_idle (set_conversation conv s)) by exact Hidle;
    rewrite app_nil_r; done.
Qed.

(** *** The cut-off of a truncation *)

(** The truncate commands of an interruption that fires. *)
Lemma handleSpeechStartedEvent_truncates s (r : Z) :
  markQueue s <> [] ->
  responseStartTimestampTwilio s = Some r ->
  truncates (fst (handleSpeechStartedEvent s)) =
  match lastAssistantItem s with
  | Some item =>
      if truthy (Some item)
      then [ConversationItemTruncate item 0 (latestMediaTimestamp s - r)]
      else []
  | None => []
  end.
Proof.
  intros Hq Hr. rewrite (handleSpeechStartedEvent_fires s r Hq Hr).
  destruct (lastAssistantItem s) as [item|]; simpl; [|done].
  by destruct (negb (String.eqb item EmptyString)).
Qed.

Lemma sendMark_clock sid s :
  latestMediaTimestamp (snd (sendMark sid s)) = latestMediaTimestamp s /\
  responseStartTimestampTwilio (snd (sendMark sid s)) = responseStartTimestampTwilio s /\
  sent_to_openai (fst (sendMark sid s)) = [].
Proof.
  unfold sendMark. destruct sid as [name|]; [|done].
  by destruct (truthy (Some name)).
Qed.

Lemma onAudioDelta_clock d item s m :
  clock_inv s m ->
  clock_inv (snd (onAudioDelta reencode d item s)) m /\
  sent_to_openai (fst (onAudioDelta reencode d item s)) = [].
Proof.
  intros (H0 & Hm & Hr). unfold onAudioDelta.
  match goal with |- context [sendMark ?a ?b] =>
    pose proof (sendMark_clock a b) as (Hl & Hs & He);
    destruct (sendMark a b) as [e3 s3] end.
  simpl in *. unfold clock_inv. rewrite Hl, Hs. clear Hl Hs.
  split.
  - destruct (falsy_number (responseStartTimestampTwilio s)) eqn:Ef;
      destruct item; simpl; rewrite ?Ef; repeat split; try lia; try done.
  - rewrite sent_to_openai_app.
    destruct (falsy_number (responseStartTimestampTwilio s));
      unfold timing_log; simpl; by rewrite He.
Qed.

Lemma handleSpeechStartedEvent_clock s m :
  clock_inv s m ->
  clock_inv (snd (handleSpeechStartedEvent s)) m /\
  Forall cutoff_nonneg (sent_to_openai (fst (handleSpeechStartedEvent s))).
Proof.
  intros (H0 & Hm & Hr). unfold handleSpeechStartedEvent.
  destruct (markQueue s) as [|tok q]; [by repeat split|].
  destruct (responseStartTimestampTwilio s) as [r|] eqn:Er.
  2: { simpl. split; [|by constructor]. unfold clock_inv. by rewrite Er. }
  simpl. split; [by repeat split|].
  unfold timing_log, SHOW_TIMING_MATH.
  destruct (lastAssistantItem s) as [item|]; simpl; [|by constructor].
  destruct (negb (String.eqb item EmptyString)); simpl; [|by constructor].
  apply Forall_cons. split; [|by constructor]. simpl in *. lia.
Qed.

Lemma onOpenAiMessage_clock data s m :
  clock_inv s m ->
  clock_inv (snd (onOpenAiMessage reencode data s)) m /\
  Forall cutoff_nonneg (sent_to_openai (fst (onOpenAiMessage reencode data s))).
Proof.
  intros Hinv. unfold onOpenAiMessage.
  destruct data as [|response]; [by split; [|constructor]|].
  destruct (processEvent (conversation s) response) as [conv [|item]].
  { simpl. split; [exact Hinv|]. rewrite log_received_openai. constructor. }
  assert (Hinv0 : clock_inv (set_conversation conv s) m) by exact Hinv.
  set (s0 := set_conversation conv s) in *.
  assert (H1 : exists e1 s1,
    (match delta response with
     | Some d => if String.eqb (type response) "response.audio.delta" && truthy (Some d)
                 then onAudioDelta reencode d item s0 else ([], s0)
     | None => ([], s0)
     end) = (e1, s1) /\ clock_inv s1 m /\ sent_to_openai e1 = []).
  { destruct (delta response) as [d|]; [|by eexists _, _].
    destruct (_ && _); [|by eexists _, _].
    destruct (onAudioDelta_clock d item s0 m Hinv0) as [Ha Hb].
    destruct (onAudioDelta reencode d item s0) as [e1 s1]. by eexists _, _. }
  destruct H1 as (e1 & s1 & -> & Hinv1 & He1).
  destruct (String.eqb (type response) "input_audio_buffer.speech_started").
  - destruct (handleSpeechStartedEvent_clock s1 m Hinv1) as [Ha Hb].
    destruct (handleSpeechStartedEvent s1) as [e2 s2]. simpl in *.
    split; [exact Ha|].
    rewrite !sent_to_openai_app, He1. simpl.
    by rewrite log_received_openai.
  - simpl. split; [exact Hinv1|].
    rewrite !sent_to_openai_app, He1, log_received_openai. constructor.
Qed.

Lemma onConnectionMessage_clock message s m :
  clock_inv s m ->
  (forall t, media_timestamp (ConnectionMessage message) = Some t -> m <= t) ->
  clock_inv (snd (onConnectionMessage message s))
            (default m (media_timestamp (ConnectionMessage message))) /\
  Forall cutoff_nonneg (sent_to_openai (fst (onConnectionMessage message s))).
Proof.
  intros (H0 & Hm & Hr) Hnext. unfold onConnectionMessage, media_timestamp in *.
  destruct message as [|data]; [by repeat split|].
  destruct (String.eqb (event data) "media").
  { destruct (media data) as [md|]; simpl in *; [|by repeat split].
    specialize (Hnext _ eq_refl). split.
    - repeat split; simpl; try lia.
      destruct (responseStartTimestampTwilio s); [lia|done].
    - destruct (is_open (openAiWs s)); simpl; repeat constructor. }
  simpl.
  destruct (String.eqb (event data) "start").
  { destruct (start data) as [st|]; simpl; [|by repeat split].
    split; [|constructor]. repeat split; simpl; lia. }
  destruct (String.eqb (event data) "mark").
  { destruct (markQueue s); simpl; by repeat split. }
  by repeat split.
Qed.

(** Timer callbacks leave the clock alone and truncate nothing. *)
Lemma fire_clock (t : N) (q : list (N * Callback)) s :
  latestMediaTimestamp (snd (fire t q s)) = latestMediaTimestamp s /\
  responseStartTimestampTwilio (snd (fire t q s)) = responseStartTimestampTwilio s /\
  Forall cutoff_nonneg (sent_to_openai (fst (fire t q s))).
Proof.
  revert s. induction q as [|[due cb] q IH]; intros s; simpl.
  { by repeat split. }
  destruct (due <=? t)%N; [|by repeat split].
  assert (Hcb : latestMediaTimestamp (snd (runCallback cb (set_timers q s)))
                = latestMediaTimestamp s /\
                responseStartTimestampTwilio (snd (runCallback cb (set_timers q s)))
                = responseStartTimestampTwilio s /\
                Forall cutoff_nonneg (sent_to_openai (fst (runCallback cb (set_timers q s))))).
  { destruct cb; simpl; [by repeat constructor|].
    destruct (streamSid s) as [sid|]; [|by repeat split].
    destruct (negb (String.eqb sid EmptyString)); by repeat split. }
  destruct (runCallback cb (set_timers q s)) as [e1 s1]. simpl in Hcb.
  destruct Hcb as (Hl & Hs & He).
  destruct (IH s1) as (Hl' & Hs' & He').
  destruct (fire t q s1) as [e2 s2]. simpl in *.
  rewrite Hl', Hs', Hl, Hs. repeat split.
  rewrite sent_to_openai_app. by apply Forall_app.
Qed.

Lemma step_clock ev s m :
  clock_inv s m ->
  (forall t, media_timestamp ev = Some t -> m <= t) ->
  clock_inv (snd (step reencode ev s)) (default m (media_timestamp ev)) /\
  Forall cutoff_nonneg (sent_to_openai (fst (step reencode ev s))).
Proof.
  intros Hinv Hnext. destruct ev; simpl.
  - split; [exact Hinv|constructor].
  - by apply onOpenAiMessage_clock.
  - split; [exact Hinv|constructor].
  - split; [exact Hinv|constructor].
  - by apply onConnectionMessage_clock.
  - unfold onConnectionClose. simpl.
    destruct (is_open (openAiWs s)); simpl; (split; [exact Hinv|constructor]).
  - unfold elapse. destruct (fire_clock (now s + ms) (timers s) s) as (Hl & Hs & He).
    destruct (fire (now s + ms) (timers s) s) as [e s']. simpl in *.
    split; [|exact He]. unfold clock_inv in *. simpl. by rewrite Hl, Hs.
Qed.

(** Along a trace whose media timestamps never decrease, starting from the
    bound [m] of the invariant, every truncation has a cut-off of 0 or more. *)
Lemma run_clock evs s m :
  clock_inv s m ->
  nondecreasing_from m (media_timestamps evs) = true ->
  Forall cutoff_nonneg (sent_to_openai (fst (run reencode evs s))).
Proof.
  revert s m. induction evs as [|ev evs IH]; intros s m Hinv Hmono; simpl.
  { constructor. }
  unfold media_timestamps in Hmono. simpl in Hmono.
  fold (media_timestamps evs) in Hmono.
  assert (Hnext : forall t, media_timestamp ev = Some t -> m <= t).
  { intros t Ht. rewrite Ht in Hmono. simpl in Hmono.
    apply andb_true_iff in Hmono as [Hle _]. lia. }
  destruct (step_clock ev s m Hinv Hnext) as [Hinv1 He1].
  destruct (step reencode ev s) as [e1 s1]. simpl in *.
  assert (Hmono1 : nondecreasing_from (default m (media_timestamp ev))
                                      (media_timestamps evs) = true).
  { destruct (media_timestamp ev) as [t|]; simpl in *; [|exact Hmono].
    by apply andb_true_iff in Hmono as [_ Hrest]. }
  specialize (IH s1 _ Hinv1 Hmono1).
  destruct (run reencode evs s1) as [e2 s2]. simpl in *.
  rewrite sent_to_openai_app. by apply Forall_app.
Qed.

Lemma connect_clock registry ref (conv : Conv) (t : N) :
  clock_inv (connect registry ref conv t) 0.
Proof. by repeat split. Qed.

(** *** The two kinds of OpenAI event the handler acts on *)

Lemma onOpenAiMessage_audio_delta response d conv item s :
  type response = "response.audio.delta"%string ->
  delta response = Some d ->
  truthy (Some d) = true ->
  processEvent (conversation s) response = (conv, Returned item) ->
  onOpenAiMessage reencode (Parsed response) s =
  onAudioDelta reencode d item (set_conversation conv s).
Proof.
  intros Hty Hd Ht Hp. unfold onOpenAiMessage, log_received.
  rewrite Hp, Hd, Hty, Ht. simpl.
  destruct (onAudioDelta reencode d item (set_conversation conv s)) as [e1 s1].
  by rewrite app_nil_r.
Qed.

Lemma onOpenAiMessage_speech_started response conv item s :
  type response = "input_audio_buffer.speech_started"%string ->
  processEvent (conversation s) response = (conv, Returned item) ->
  onOpenAiMessage reencode (Parsed response) s =
  (log_received response ++ fst (handleSpeechStartedEvent (set_conversation conv s)),
   snd (handleSpeechStartedEvent (set_conversation conv s))).
Proof.
  intros Hty Hp. unfold onOpenAiMessage. rewrite Hp, Hty. simpl.
  destruct (delta response); simpl;
    by destruct (handleSpeechStartedEvent (set_conversation conv s)).
Qed.

(** What the audio-delta branch sends and writes. *)
Lemma onAudioDelta_spec d item s :
  let '(e, s') := onAudioDelta reencode d item s in
  sent_to_twilio e =
    MediaFrame (streamSid s) (reencode d)
    :: (if truthy (streamSid s)
        then [MarkFrame (default EmptyString (streamSid s)) "responsePart"] else []) /\
  sent_to_openai e = [] /\
  responseStartTimestampTwilio s' =
    (if falsy_number (responseStartTimestampTwilio s)
     then Some (latestMediaTimestamp s) else responseStartTimestampTwilio s) /\
  lastAssistantItem s' =
    match item with Some it => Some (id it) | None => lastAssistantItem s end /\
  markQueue s' =
    (if truthy (streamSid s)
     then markQueue s ++ ["responsePart"%string] else markQueue s) /\
  latestMediaTimestamp s' = latestMediaTimestamp s /\
  streamSid s' = streamSid s /\
  conversation s' = conversation s.
Proof.
  unfold onAudioDelta, sendMark, timing_log, SHOW_TIMING_MATH.
  destruct (falsy_number (responseStartTimestampTwilio s)), item as [it|];
    simpl; (destruct (streamSid s) as [sid|] eqn:Esid; simpl;
            [destruct (negb (String.eqb sid EmptyString)); simpl|]);
    rewrite ?Esid; done.
Qed.

Lemma run_cons ev evs s :
  run reencode (ev :: evs) s =
  (fst (step reencode ev s) ++ fst (run reencode evs (snd (step reencode ev s))),
   snd (run reencode evs (snd (step reencode ev s)))).
Proof.
  cbn [run]. destruct (step reencode ev s) as [e1 s1]. cbn [fst snd].
  by destruct (run reencode evs s1).
Qed.

Lemma media_frame_step m s :
  step reencode (media_frame m) s =
  ((if is_open (openAiWs s) then [OpenAiSend (InputAudioBufferAppend (payload m))] else []),
   set_latestMediaTimestamp (timestamp m) s).
Proof. reflexivity. Qed.

Lemma truncates_log_received response : truncates (log_received response) = [].
Proof. unfold truncates. by rewrite log_received_openai. Qed.

(** The second scenario of the specification, from any state in which a
    stream has started, the clock shows 1000 and no response start is
    recorded. *)
Lemma scenario_cutoff_800 s response d conv1 heard conv2 item p :
  latestMediaTimestamp s = 1000 ->
  falsy_number (responseStartTimestampTwilio s) = true ->
  truthy (streamSid s) = true ->
  type response = "response.audio.delta"%string ->
  delta response = Some d ->
  truthy (Some d) = true ->
  processEvent (conversation s) response = (conv1, Returned (Some {| id := "I1" |})) ->
  type heard = "input_audio_buffer.speech_started"%string ->
  processEvent conv1 heard = (conv2, Returned item) ->
  truncates (fst (run reencode
                    [ OpenAiMessage (Parsed response);
                      media_frame {| timestamp := 1800; payload := p |};
                      OpenAiMessage (Parsed heard) ] s))
  = [ConversationItemTruncate "I1" 0 800].
Proof.
  intros Hl Hf Hsid Hty Hd Ht Hp1 Hty2 Hp2.
  rewrite !run_cons. cbn [run step fst snd].
  rewrite (onOpenAiMessage_audio_delta response d conv1 _ s Hty Hd Ht Hp1).
  pose proof (onAudioDelta_spec d (Some {| id := "I1" |}) (set_conversation conv1 s))
    as Hspec.
  destruct (onAudioDelta reencode d (Some {| id := "I1" |}) (set_conversation conv1 s))
    as [e1 s1].
  destruct Hspec as (Htw & Hop & Hrs & Hit & Hq & Hlm & Hsd & Hcv).
  cbn [fst snd] in *. simpl in Hrs, Hit, Hq, Hlm, Hsd, Hcv.
  rewrite Hf in Hrs. rewrite Hsid in Hq. rewrite Hl in Hrs.
  rewrite media_frame_step. cbn [fst snd timestamp payload].
  set (s2 := set_latestMediaTimestamp 1800 s1).
  assert (Hp2' : processEvent (conversation s2) heard = (conv2, Returned item))
    by (simpl; by rewrite Hcv).
  rewrite (onOpenAiMessage_speech_started heard conv2 item s2 Hty2 Hp2').
  cbn [fst snd]. rewrite !truncates_app, truncates_log_received.
  rewrite (handleSpeechStartedEvent_truncates (set_conversation conv2 s2) 1000).
  - simpl. rewrite Hit. simpl.
    unfold truncates. rewrite Hop. by destruct (is_open (openAiWs s1)).
  - simpl. rewrite Hq. by destruct (markQueue s).
  - simpl. by rewrite Hrs.
Qed.

(** C1: (a) an interruption that fires truncates [lastAssistantItem], if it
    is set, at [latestMediaTimestamp - responseStartTimestampTwilio], and
    sends no other truncate command; (b) on a new connection, for every
    trace whose media timestamps never decrease from the clock's initial 0,
    no truncate command has a negative cut-off; (c) an audio delta for which
    the tracker returns item "I1", arriving at clock 1000 on a started
    stream with no response start recorded, then a media frame stamped 1800,
    then speech-started: the one truncate command names "I1" with cut-off
    800. *)
Theorem truncation_cutoff :
  (forall s r,
     markQueue s <> [] ->
     responseStartTimestampTwilio s = Some r ->
     truncates (fst (handleSpeechStartedEvent s)) =
     match lastAssistantItem s with
     | Some item =>
         if truthy (Some item)
         then [ConversationItemTruncate item 0 (latestMediaTimestamp s - r)]
         else []
     | None => []
     end) /\
  (forall registry ref (conv : Conv) t evs,
     nondecreasing_from 0 (media_timestamps evs) = true ->
     Forall cutoff_nonneg
       (sent_to_openai (fst (run reencode evs (connect registry ref conv t))))) /\
  (forall s response d conv1 heard conv2 item p,
     latestMediaTimestamp s = 1000 ->
     falsy_number (responseStartTimestampTwilio s) = true ->
     truthy (streamSid s) = true ->
     type response = "response.audio.delta"%string ->
     delta response = Some d ->
     truthy (Some d) = true ->
     processEvent (conversation s) response
       = (conv1, Returned (Some {| id := "I1" |})) ->
     type heard = "input_audio_buffer.speech_started"%string ->
     processEvent conv1 heard = (conv2, Returned item) ->
     truncates (fst (run reencode
                       [ OpenAiMessage (Parsed response);
                         media_frame {| timestamp := 1800; payload := p |};
                         OpenAiMessage (Parsed heard) ] s))
     = [ConversationItemTruncate "I1" 0 800]).
Proof.
  split; [|split].
  - apply handleSpeechStartedEvent_truncates.
  - intros registry ref conv t evs Hmono.
    by apply (run_clock evs _ 0); [apply connect_clock|].
  - apply scenario_cutoff_800.
Qed.

(** *** What the handlers leave alone *)

Lemma handleSpeechStartedEvent_frame s :
  let s' := snd (handleSpeechStartedEvent s) in
  streamSid s' = streamSid s /\
  activeConversations s' = activeConversations s /\
  conversation_ref s' = conversation_ref s /\
  timers s' = timers s /\ now s' = now s /\
  openAiWs s' = openAiWs s /\ connection s' = connection s /\
  latestMediaTimestamp s' = latestMediaTimestamp s.
Proof.
  unfold handleSpeechStartedEvent.
  destruct (markQueue s); [done|].
  by destruct (responseStartTimestampTwilio s).
Qed.

Lemma onAudioDelta_frame d item s :
  let s' := snd (onAudioDelta reencode d item s) in
  streamSid s' = streamSid s /\
  activeConversations s' = activeConversations s /\
  conversation_ref s' = conversation_ref s /\
  timers s' = timers s /\ now s' = now s /\
  openAiWs s' = openAiWs s /\ connection s' = connection s /\
  latestMediaTimestamp s' = latestMediaTimestamp s.
Proof.
  unfold onAudioDelta, sendMark.
  destruct (falsy_number (responseStartTimestampTwilio s)), item as [it|];
    simpl; (destruct (streamSid s) as [sid|] eqn:Esid; simpl;
            [destruct (negb (String.eqb sid EmptyString)); simpl|]);
    rewrite ?Esid; done.
Qed.

(** An OpenAI message writes none of [streamSid], the registry, the
    timers, the clock, the socket states and [latestMediaTimestamp]. *)
Lemma onOpenAiMessage_frame data s :
  let s' := snd (onOpenAiMessage reencode data s) in
  streamSid s' = streamSid s /\
  activeConversations s' = activeConversations s /\
  conversation_ref s' = conversation_ref s /\
  timers s' = timers s /\ now s' = now s /\
  openAiWs s' = openAiWs s /\ connection s' = connection s /\
  latestMediaTimestamp s' = latestMediaTimestamp s.
Proof.
  unfold onOpenAiMessage. destruct data as [|response]; [done|].
  destruct (processEvent (conversation s) response) as [conv [|item]]; [done|].
  set (s0 := set_conversation conv s).
  assert (H1 : exists e1 s1,
    (match delta response with
     | Some d => if String.eqb (type response) "response.audio.delta" && truthy (Some d)
                 then onAudioDelta reencode d item s0 else ([], s0)
     | None => ([], s0)
     end) = (e1, s1) /\
    streamSid s1 = streamSid s /\
    activeConversations s1 = activeConversations s /\
    conversation_ref s1 = conversation_ref s /\
    timers s1 = timers s /\ now s1 = now s /\
    openAiWs s1 = openAiWs s /\ connection s1 = connection s /\
    latestMediaTimestamp s1 = latestMediaTimestamp s).
  { destruct (delta response) as [d|]; [|by eexists _, _].
    destruct (_ && _); [|by eexists _, _].
    pose proof (onAudioDelta_frame d item s0) as Hf.
    destruct (onAudioDelta reencode d item s0) as [e1 s1]. by eexists _, _. }
  destruct H1 as (e1 & s1 & -> & Hs1).
  destruct (String.eqb (type response) "input_audio_buffer.speech_started"); [|done].
  pose proof (handleSpeechStartedEvent_frame s1) as Hf.
  destruct (handleSpeechStartedEvent s1) as [e2 s2]. simpl in *.
  destruct Hs1 as (A1 & A2 & A3 & A4 & A5 & A6 & A7 & A8).
  destruct Hf as (B1 & B2 & B3 & B4 & B5 & B6 & B7 & B8).
  repeat split; congruence.
Qed.

(** *** Media frames *)

Lemma run_media_frames (ms : list Media) (m : Media) s :
  latestMediaTimestamp (snd (run reencode (map media_frame (ms ++ [m])) s))
  = timestamp m.
Proof.
  revert s. induction ms as [|m0 ms IH]; intros s.
  - reflexivity.
  - change (map media_frame ((m0 :: ms) ++ [m]))
      with (media_frame m0 :: map media_frame (ms ++ [m])).
    rewrite run_cons. cbn [snd]. apply IH.
Qed.

(** C5: a media frame writes its timestamp to [latestMediaTimestamp]
    whatever the state of the OpenAI socket, and its payload goes to OpenAI,
    as it is, in one append command exactly when that socket is open; after
    any non-empty sequence of media frames (so in particular one whose
    timestamps never decrease) [latestMediaTimestamp] is the timestamp of
    the last one. *)
Theorem media_frames_update_clock_and_forward :
  (forall m s,
     let '(e, s') := step reencode (media_frame m) s in
     latestMediaTimestamp s' = timestamp m /\
     sent_to_openai e =
       (if is_open (openAiWs s) then [InputAudioBufferAppend (payload m)] else [])) /\
  (forall ms m s,
     latestMediaTimestamp (snd (run reencode (map media_frame (ms ++ [m])) s))
     = timestamp m).
Proof.
  split.
  - intros m s. rewrite media_frame_step. split; [done|].
    by destruct (is_open (openAiWs s)).
  - apply run_media_frames.
Qed.

(** *** Malformed messages *)

(** C9: a telephony message that does not parse is reported with
    [console.error] and changes nothing; an OpenAI message that does not
    parse does nothing at all; and a trace with such a message in it leaves
    the state of the same trace without it, with the same effects but for
    the error report. *)
Theorem malformed_messages_are_dropped :
  (forall s,
     onConnectionMessage Unparsable s = ([ConsoleError "Error parsing message:"], s)) /\
  (forall s, onOpenAiMessage reencode Unparsable s = ([], s)) /\
  (forall evs1 evs2 s,
     run reencode (evs1 ++ ConnectionMessage Unparsable :: evs2) s =
     (fst (run reencode evs1 s)
      ++ ConsoleError "Error parsing message:"
      :: fst (run reencode evs2 (snd (run reencode evs1 s))),
      snd (run reencode (evs1 ++ evs2) s))) /\
  (forall evs1 evs2 s,
     run reencode (evs1 ++ OpenAiMessage Unparsable :: evs2) s =
     run reencode (evs1 ++ evs2) s).
Proof.
  repeat split.
  - intros evs1 evs2 s. rewrite !run_app, run_cons. reflexivity.
  - intros evs1 evs2 s. rewrite !run_app, run_cons. reflexivity.
Qed.

(** *** Closing *)

(** C7, as the handlers have it: when the telephony socket closes, the
    OpenAI socket is closed if and only if it is open; when the OpenAI socket
    closes, the handler writes one log line and leaves the telephony socket,
    the timers and the registry as they are. *)
Theorem close_propagates_from_telephony_only :
  (forall s,
     let '(e, s') := onConnectionClose s in
     if is_open (openAiWs s)
     then In OpenAiCloseCall e /\ openAiWs s' = CLOSING
     else ~ In OpenAiCloseCall e /\ openAiWs s' = openAiWs s) /\
  (forall s,
     let '(e, s') := onOpenAiClose s in
     e = [ConsoleLog "Disconnected from the OpenAI Realtime API"] /\
     connection s' = connection s /\
     timers s' = timers s /\
     activeConversations s' = activeConversations s).
Proof.
  split.
  - intros s. unfold onConnectionClose. simpl.
    destruct (is_open (openAiWs s)) eqn:E; simpl.
    + split; [by left|done].
    + split; [|done]. intros [Hin|[]]. discriminate Hin.
  - done.
Qed.

(** *** Timers *)

Lemma schedule_In x t (q : list (N * Callback)) :
  In x (schedule t q) <-> x = t \/ In x q.
Proof.
  induction q as [|y q IH]; simpl.
  - split; [intros [<-|[]]; by left|intros [->|[]]; by left].
  - destruct (fst t <? fst y)%N; simpl; [intuition congruence|].
    rewrite IH. intuition congruence.
Qed.

Lemma schedule_by_due_time t (q : list (N * Callback)) :
  by_due_time q -> by_due_time (schedule t q).
Proof.
  induction q as [|y q IH]; simpl; [by split|].
  intros [Hy Hq]. destruct (fst t <? fst y)%N eqn:E; simpl.
  - apply N.ltb_lt in E. split; [|by split].
    intros z [<-|Hz]; [lia|]. specialize (Hy z Hz). lia.
  - apply N.ltb_ge in E. split; [|by apply IH].
    intros z Hz. apply schedule_In in Hz as [->|Hz]; [lia|by apply Hy].
Qed.

Lemma remaining_In x t (q : list (N * Callback)) :
  In x (remaining t q) -> In x q.
Proof.
  induction q as [|[due cb] q IH]; simpl; [done|].
  destruct (due <=? t)%N; [by right; apply IH|done].
Qed.

Lemma remaining_by_due_time t (q : list (N * Callback)) :
  by_due_time q -> by_due_time (remaining t q).
Proof.
  induction q as [|[due cb] q IH]; simpl; [done|].
  intros [Hy Hq]. destruct (due <=? t)%N; [by apply IH|by split].
Qed.

Lemma remaining_keeps due cb t (q : list (N * Callback)) :
  (t < due)%N -> In (due, cb) q -> In (due, cb) (remaining t q).
Proof.
  intros Hlt. induction q as [|[d c] q IH]; simpl; [done|].
  destruct (d <=? t)%N eqn:E; [|done].
  apply N.leb_le in E. intros [Heq|Hin]; [|by apply IH].
  injection Heq as -> ->. lia.
Qed.

(** A callback writes at most the registry, and there it only deletes. *)
Lemma runCallback_frame cb s :
  let s' := snd (runCallback cb s) in
  streamSid s' = streamSid s /\
  conversation_ref s' = conversation_ref s /\
  timers s' = timers s /\ now s' = now s /\
  markQueue s' = markQueue s /\
  sent_to_twilio (fst (runCallback cb s)) = [] /\
  (forall k, activeConversations s !! k = None ->
             activeConversations s' !! k = None) /\
  (cb = InitializeSession -> activeConversations s' = activeConversations s) /\
  (cb = EvictConversation ->
   forall sid, streamSid s = Some sid -> truthy (Some sid) = true ->
               activeConversations s' !! sid = None).
Proof.
  destruct cb; simpl.
  { repeat split; try done. }
  destruct (streamSid s) as [sid|] eqn:Esid; simpl.
  2: { repeat split; try done. }
  destruct (negb (String.eqb sid EmptyString)) eqn:Et; simpl; rewrite ?Esid.
  - repeat split; try done.
    + intros k Hk. destruct (decide (sid = k)) as [->|Hne].
      * apply lookup_delete_eq.
      * by rewrite lookup_delete_ne.
    + intros _ sid' [= <-] _. apply lookup_delete_eq.
  - repeat split; try done. intros _ sid' [= <-]. simpl. by rewrite Et.
Qed.

Lemma fire_frame (t : N) (q : list (N * Callback)) s :
  let s' := snd (fire t q s) in
  streamSid s' = streamSid s /\
  conversation_ref s' = conversation_ref s /\
  now s' = now s /\
  markQueue s' = markQueue s /\
  sent_to_twilio (fst (fire t q s)) = [] /\
  (forall k, activeConversations s !! k = None ->
             activeConversations s' !! k = None).
Proof.
  revert s. induction q as [|[due cb] q IH]; intros s; simpl; [done|].
  destruct (due <=? t)%N; [|done].
  pose proof (runCallback_frame cb (set_timers q s))
    as (A1 & A2 & A3 & A4 & A5 & A6 & A7 & _).
  destruct (runCallback cb (set_timers q s)) as [e1 s1].
  specialize (IH s1). destruct IH as (B1 & B2 & B3 & B4 & B5 & B6).
  destruct (fire t q s1) as [e2 s2]. simpl in *.
  repeat split; try congruence.
  - by rewrite sent_to_twilio_app, A6, B5.
  - intros k Hk. by apply B6, A7.
Qed.

Lemma fire_timers (t : N) (q : list (N * Callback)) s :
  timers s = q -> timers (snd (fire t q s)) = remaining t q.
Proof.
  revert s. induction q as [|[due cb] q IH]; intros s Hq; simpl; [done|].
  destruct (due <=? t)%N; [|done].
  pose proof (runCallback_frame cb (set_timers q s)) as (_ & _ & A3 & _).
  destruct (runCallback cb (set_timers q s)) as [e1 s1].
  specialize (IH s1 A3). by destruct (fire t q s1).
Qed.

(** Before any eviction is due, the registry stays as it is. *)
Lemma fire_registry_early (t : N) (q : list (N * Callback)) s :
  (forall d, In (d, EvictConversation) q -> (t < d)%N) ->
  activeConversations (snd (fire t q s)) = activeConversations s.
Proof.
  revert s. induction q as [|[due cb] q IH]; intros s Hev; simpl; [done|].
  destruct (due <=? t)%N eqn:E; [|done]. apply N.leb_le in E.
  assert (Hcb : cb = InitializeSession).
  { destruct cb; [done|]. specialize (Hev due (or_introl eq_refl)). lia. }
  pose proof (runCallback_frame cb (set_timers q s))
    as (_ & _ & _ & _ & _ & _ & _ & A8 & _).
  specialize (A8 Hcb).
  destruct (runCallback cb (set_timers q s)) as [e1 s1].
  assert (Hev' : forall d, In (d, EvictConversation) q -> (t < d)%N)
    by (intros d Hd; apply Hev; by right).
  specialize (IH s1 Hev'). destruct (fire t q s1) as [e2 s2].
  simpl in *. congruence.
Qed.

(** Once the eviction is due, the session's key is gone. *)
Lemma fire_evicts (t due : N) (q : list (N * Callback)) s sid :
  by_due_time q ->
  In (due, EvictConversation) q ->
  (due <= t)%N ->
  streamSid s = Some sid ->
  truthy (Some sid) = true ->
  activeConversations (snd (fire t q s)) !! sid = None.
Proof.
  revert s. induction q as [|[d cb] q IH]; intros s Hsorted Hin Hdue Hsid Ht;
    simpl; [done|].
  destruct Hsorted as [Hhead Hsorted].
  assert (Hd : (d <= t)%N).
  { destruct Hin as [Heq|Hin]; [injection Heq as -> _; lia|].
    specialize (Hhead _ Hin). simpl in Hhead. lia. }
  apply N.leb_le in Hd. rewrite Hd.
  pose proof (runCallback_frame cb (set_timers q s))
    as (A1 & _ & _ & _ & _ & _ & _ & _ & A9).
  destruct (runCallback cb (set_timers q s)) as [e1 s1]. simpl in A1, A9.
  destruct Hin as [Heq|Hin].
  - injection Heq as -> ->.
    specialize (A9 eq_refl sid Hsid Ht).
    pose proof (fire_frame t q s1) as (_ & _ & _ & _ & _ & B6).
    destruct (fire t q s1) as [e2 s2]. simpl in *. by apply B6.
  - assert (Hsid1 : streamSid s1 = Some sid) by congruence.
    specialize (IH s1 Hsorted Hin Hdue Hsid1 Ht).
    by destruct (fire t q s1).
Qed.

(** *** The registry *)

(** A telephony message writes neither the timers nor the clock nor the
    identity of the conversation; unless it is tagged [start], it writes
    neither [streamSid] nor the registry. *)
Lemma onConnectionMessage_frame message s :
  let s' := snd (onConnectionMessage message s) in
  conversation_ref s' = conversation_ref s /\
  timers s' = timers s /\ now s' = now s /\
  (is_start (ConnectionMessage message) = false ->
   streamSid s' = streamSid s /\
   activeConversations s' = activeConversations s).
Proof.
  unfold onConnectionMessage, is_start. destruct message as [|data]; [done|].
  destruct (String.eqb (event data) "media").
  { by destruct (media data). }
  destruct (String.eqb (event data) "start").
  { destruct (start data); simpl; repeat split; done. }
  destruct (String.eqb (event data) "mark"); [|done].
  by destruct (markQueue s).
Qed.

Lemma step_conversation_ref ev s :
  conversation_ref (snd (step reencode ev s)) = conversation_ref s.
Proof.
  destruct ev; simpl; try done.
  - apply onOpenAiMessage_frame.
  - apply onConnectionMessage_frame.
  - unfold onConnectionClose. simpl. by destruct (is_open (openAiWs s)).
  - unfold elapse.
    pose proof (fire_frame (now s + ms) (timers s) s) as (_ & A2 & _).
    by destruct (fire (now s + ms) (timers s) s).
Qed.

Lemma step_streamSid ev s :
  is_start ev = false ->
  streamSid (snd (step reencode ev s)) = streamSid s.
Proof.
  intros Hns. destruct ev; simpl; try done.
  - apply onOpenAiMessage_frame.
  - by apply onConnectionMessage_frame.
  - unfold onConnectionClose. simpl. by destruct (is_open (openAiWs s)).
  - unfold elapse.
    pose proof (fire_frame (now s + ms) (timers s) s) as (A1 & _).
    by destruct (fire (now s + ms) (timers s) s).
Qed.

Lemma step_now ev s :
  now (snd (step reencode ev s)) =
  (now s + match ev with Elapse ms => ms | _ => 0 end)%N.
Proof.
  destruct ev; simpl; rewrite ?N.add_0_r; try done.
  - apply onOpenAiMessage_frame.
  - apply onConnectionMessage_frame.
  - unfold onConnectionClose. simpl. by destruct (is_open (openAiWs s)).
  - unfold elapse. by destruct (fire (now s + ms) (timers s) s).
Qed.

Lemma run_now evs s :
  now (snd (run reencode evs s)) = (now s + elapsed evs)%N.
Proof.
  revert s. induction evs as [|ev evs IH]; intros s.
  - simpl. lia.
  - rewrite run_cons. cbn [snd]. rewrite IH, step_now.
    destruct ev; simpl; lia.
Qed.

(** A property kept by every admissible event is kept by a trace of them. *)
Lemma run_invariant (P : State Conv -> Prop) (ok : Event -> bool) :
  (forall ev s, ok ev = true -> P s -> P (snd (step reencode ev s))) ->
  forall evs s, forallb ok evs = true -> P s -> P (snd (run reencode evs s)).
Proof.
  intros Hstep evs. induction evs as [|ev evs IH]; intros s Hok HP; [done|].
  simpl in Hok. apply andb_true_iff in Hok as [Hev Hevs].
  rewrite run_cons. cbn [snd]. apply IH; [done|]. by apply Hstep.
Qed.

Lemma connect_registered registry ref (conv : Conv) (t : N) :
  registered (connect registry ref conv t).
Proof. repeat split; simpl; [intros due []|done]. Qed.

Lemma step_registered ev s :
  negb (is_close ev) = true ->
  registered s -> registered (snd (step reencode ev s)).
Proof.
  intros Hev (Hsorted & Hnone & Hreg). destruct ev; simpl in *; try done.
  - (* the OpenAI socket opens *)
    repeat split; simpl; [by apply schedule_by_due_time| |done].
    intros due Hin. apply schedule_In in Hin as [[=]|Hin]. by apply (Hnone due).
  - (* an OpenAI message *)
    pose proof (onOpenAiMessage_frame data s) as (A1 & A2 & A3 & A4 & _).
    simpl in *. unfold registered. by rewrite A1, A2, A3, A4.
  - (* a telephony message *)
    pose proof (onConnectionMessage_frame message s) as (A1 & A2 & _ & A4).
    unfold registered. rewrite A1, A2. repeat split; [done..|].
    destruct (is_start (ConnectionMessage message)) eqn:Es.
    + unfold onConnectionMessage, is_start in *.
      destruct message as [|data]; [done|]. rewrite Es.
      destruct (String.eqb (event data) "media") eqn:Em.
      { apply String.eqb_eq in Em, Es. congruence. }
      destruct (start data) as [st|]; simpl; [|done].
      intros sid [= <-]. apply lookup_insert_eq.
    + destruct (A4 eq_refl) as [-> ->]. done.
  - (* time passes *)
    unfold elapse.
    pose proof (fire_frame (now s + ms) (timers s) s) as (A1 & A2 & _).
    pose proof (fire_timers (now s + ms) (timers s) s eq_refl) as A3.
    pose proof (fire_registry_early (now s + ms) (timers s) s) as A4.
    destruct (fire (now s + ms) (timers s) s) as [e s']. simpl in *.
    unfold registered. simpl. rewrite A1, A2, A3, A4.
    + repeat split; [by apply remaining_by_due_time| |done].
      intros due Hin. apply remaining_In in Hin. by apply (Hnone due).
    + intros d Hd. by destruct (Hnone d).
Qed.

Lemma onConnectionClose_in_grace s sid :
  registered s ->
  streamSid s = Some sid ->
  in_grace sid (conversation_ref s) (now s + EVICTION_DELAY)
           (snd (onConnectionClose s)).
Proof.
  intros (Hsorted & Hnone & Hreg) Hsid.
  assert (Hs : snd (onConnectionClose s) =
               setTimeout EvictConversation EVICTION_DELAY
                 (snd (if is_open (openAiWs s)
                       then ([OpenAiCloseCall], set_openAiWs CLOSING (set_connection CLOSED s))
                       else ([], set_connection CLOSED s)))).
  { unfold onConnectionClose. simpl. by destruct (is_open (openAiWs s)). }
  rewrite Hs. clear Hs.
  assert (Hfields : forall b : bool,
    let s1 := snd (if b
                   then ([OpenAiCloseCall], set_openAiWs CLOSING (set_connection CLOSED s))
                   else (@nil Effect, set_connection CLOSED s)) in
    streamSid s1 = streamSid s /\ timers s1 = timers s /\ now s1 = now s /\
    activeConversations s1 = activeConversations s) by (by intros []).
  destruct (Hfields (is_open (openAiWs s))) as (B1 & B2 & B3 & B4).
  unfold in_grace, setTimeout. simpl. rewrite B1, B2, B3, B4.
  split; [done|]. split; [by apply schedule_by_due_time|].
  left. unfold EVICTION_DELAY. split; [lia|].
  split; [apply schedule_In; by left|]. split; [|by apply Hreg].
  intros d Hd. apply schedule_In in Hd as [[= ->]|Hd]; [done|].
  by destruct (Hnone d).
Qed.

Lemma step_in_grace sid ref due ev s :
  truthy (Some sid) = true ->
  negb (on_connection ev) = true ->
  in_grace sid ref due s -> in_grace sid ref due (snd (step reencode ev s)).
Proof.
  intros Ht Hev (Hsid & Hsorted & Hphase). destruct ev; simpl in *; try done.
  - (* the OpenAI socket opens *)
    unfold in_grace. simpl. split; [done|].
    split; [by apply schedule_by_due_time|].
    destruct Hphase as [(Hnow & Hin & Huniq & Hreg)|Hgone]; [left|by right].
    repeat split; try done.
    + apply schedule_In. by right.
    + intros d Hd. apply schedule_In in Hd as [[=]|Hd]. by apply Huniq.
  - (* an OpenAI message *)
    pose proof (onOpenAiMessage_frame data s) as (A1 & A2 & _ & A4 & A5 & _).
    simpl in *. unfold in_grace. by rewrite A1, A2, A4, A5.
  - (* time passes *)
    unfold elapse.
    pose proof (fire_frame (now s + ms) (timers s) s) as (A1 & _ & _ & _ & _ & A6).
    pose proof (fire_timers (now s + ms) (timers s) s eq_refl) as A3.
    pose proof (fire_registry_early (now s + ms) (timers s) s) as A4.
    pose proof (fire_evicts (now s + ms) due (timers s) s sid Hsorted) as A5.
    destruct (fire (now s + ms) (timers s) s) as [e s']. simpl in *.
    unfold in_grace. simpl. rewrite A1, A3.
    split; [done|]. split; [by apply remaining_by_due_time|].
    destruct Hphase as [(Hnow & Hin & Huniq & Hreg)|[Hnow Hgone]].
    + destruct (N.lt_ge_cases (now s + ms) due) as [Hearly|Hlate].
      * left. rewrite A4.
        -- repeat split; try done; [by apply remaining_keeps|].
           intros d Hd. apply Huniq. by apply remaining_In in Hd.
        -- intros d Hd. by rewrite (Huniq d Hd).
      * right. split; [done|]. by apply A5.
    + right. split; [lia|]. by apply A6.
Qed.

(** C8: a session whose [streamSid] was set to a non-empty [sid] by a start
    frame, and not changed since, is in the registry under [sid] at every
    moment less than 300000 ms after the telephony socket closed, and is not
    at any moment more than 300000 ms after it.  Before the close any events
    may have occurred; after it, none of the closed socket. *)
Theorem eviction_after_grace_period
    registry ref (conv : Conv) (t0 : N) pre sid post after :
  truthy (Some sid) = true ->
  no_close pre = true ->
  no_close post = true ->
  no_start post = true ->
  none_on_connection after = true ->
  let closed :=
    snd (run reencode (pre ++ start_frame sid :: post ++ [ConnectionClose])
             (connect registry ref conv t0)) in
  let later := snd (run reencode after closed) in
  ((elapsed after < EVICTION_DELAY)%N ->
   activeConversations later !! sid = Some ref) /\
  ((EVICTION_DELAY < elapsed after)%N ->
   activeConversations later !! sid = None).
Proof.
  intros Ht Hpre Hpost Hns Hafter closed later.
  set (s0 := connect registry ref conv t0).
  set (sa := snd (run reencode pre s0)).
  set (sb := snd (step reencode (start_frame sid) sa)).
  set (sc := snd (run reencode post sb)).
  assert (Hclosed : closed = snd (onConnectionClose sc)).
  { unfold closed, sc, sb, sa, s0.
    rewrite run_app. cbn [snd]. rewrite run_cons. cbn [snd].
    rewrite run_app. cbn [snd]. rewrite run_cons. reflexivity. }
  assert (Hra : registered sa).
  { apply (run_invariant registered (fun ev => negb (is_close ev)));
      [apply step_registered|exact Hpre|apply connect_registered]. }
  assert (Hrb : registered sb) by (by apply step_registered).
  assert (Hrc : registered sc).
  { apply (run_invariant registered (fun ev => negb (is_close ev)));
      [apply step_registered|exact Hpost|exact Hrb]. }
  assert (Hsid : streamSid sc = Some sid).
  { apply (run_invariant (fun s => streamSid s = Some sid)
                         (fun ev => negb (is_start ev))); [|exact Hns|done].
    intros ev s Hev Hs. rewrite step_streamSid; [done|].
    by apply negb_true_iff. }
  assert (Href : conversation_ref sc = ref).
  { assert (Hall : forall evs s, conversation_ref (snd (run reencode evs s))
                                 = conversation_ref s).
    { intros evs. induction evs as [|ev evs IH]; intros s; [done|].
      rewrite run_cons. cbn [snd]. by rewrite IH, step_conversation_ref. }
    unfold sc, sb, sa. by rewrite Hall, step_conversation_ref, Hall. }
  pose proof (onConnectionClose_in_grace sc sid Hrc Hsid) as Hgrace.
  rewrite Href, <- Hclosed in Hgrace.
  assert (Hnow_closed : now closed = now sc).
  { rewrite Hclosed. unfold onConnectionClose. simpl.
    by destruct (is_open (openAiWs sc)). }
  assert (Hlater : in_grace sid ref (now sc + EVICTION_DELAY) later).
  { apply (run_invariant (in_grace sid ref (now sc + EVICTION_DELAY))
                         (fun ev => negb (on_connection ev)));
      [intros ev s; by apply step_in_grace|exact Hafter|exact Hgrace]. }
  assert (Hnow : now later = (now sc + elapsed after)%N).
  { unfold later. by rewrite run_now, Hnow_closed. }
  destruct Hlater as (_ & _ & [(Hn & _ & _ & Hreg)|[Hn Hgone]]); split;
    intros Hel; try done; lia.
Qed.

(** *** Marks *)

Lemma sendMark_spec sid s :
  let '(e, s') := sendMark sid s in
  if truthy sid
  then e = [ConnectionSend (MarkFrame (default EmptyString sid) "responsePart")] /\
       markQueue s' = markQueue s ++ ["responsePart"%string]
  else e = [] /\ s' = s.
Proof.
  unfold sendMark. destruct sid as [name|]; simpl; [|done].
  by destruct (negb (String.eqb name EmptyString)).
Qed.

Lemma marks_log_received response : marks (log_received response) = [].
Proof. unfold marks. by rewrite log_received_twilio. Qed.

Lemma handleSpeechStartedEvent_marks s :
  marks (fst (handleSpeechStartedEvent s)) = [] /\
  (length (markQueue (snd (handleSpeechStartedEvent s))) <= length (markQueue s))%nat.
Proof.
  unfold handleSpeechStartedEvent.
  destruct (markQueue s) as [|tok q] eqn:Eq; [simpl; by rewrite Eq|].
  destruct (responseStartTimestampTwilio s) as [r|]; simpl; [|by rewrite Eq].
  split; [|lia]. unfold timing_log, SHOW_TIMING_MATH. simpl.
  destruct (lastAssistantItem s) as [item|]; [|done].
  by destruct (negb (String.eqb item EmptyString)).
Qed.

(** Each event either sends one mark frame and appends one token, on a
    session whose [streamSid] is set, or sends none and appends none. *)
Lemma step_marks ev s :
  (exists sid,
     marks (fst (step reencode ev s)) = [MarkFrame sid "responsePart"] /\
     streamSid s = Some sid /\ truthy (Some sid) = true /\
     markQueue (snd (step reencode ev s)) = markQueue s ++ ["responsePart"%string]) \/
  (marks (fst (step reencode ev s)) = [] /\
   (length (markQueue (snd (step reencode ev s))) <= length (markQueue s))%nat).
Proof.
  destruct ev; simpl; try (by right).
  - (* an OpenAI message *)
    unfold onOpenAiMessage. destruct data as [|response]; [by right|].
    destruct (processEvent (conversation s) response) as [conv [|item]].
    { right. simpl. by rewrite marks_log_received. }
    set (s0 := set_conversation conv s).
    destruct (delta response) as [d|].
    2: { right.
         destruct (String.eqb (type response) "input_audio_buffer.speech_started").
         - pose proof (handleSpeechStartedEvent_marks s0) as [A1 A2].
           destruct (handleSpeechStartedEvent s0) as [e2 s2]. simpl in *.
           by rewrite marks_app, marks_log_received, A1.
         - simpl. by rewrite marks_app, marks_log_received. }
    destruct (String.eqb (type response) "response.audio.delta") eqn:Ety; simpl.
    2: { right.
         destruct (String.eqb (type response) "input_audio_buffer.speech_started").
         - pose proof (handleSpeechStartedEvent_marks s0) as [A1 A2].
           destruct (handleSpeechStartedEvent s0) as [e2 s2]. simpl in *.
           by rewrite marks_app, marks_log_received, A1.
         - simpl. by rewrite marks_app, marks_log_received. }
    apply String.eqb_eq in Ety. rewrite Ety. simpl.
    destruct (negb (String.eqb d EmptyString)).
    2: { right. simpl. by rewrite marks_app, marks_log_received. }
    pose proof (onAudioDelta_spec d item s0) as Hspec.
    destruct (onAudioDelta reencode d item s0) as [e1 s1].
    destruct Hspec as (Htw & _ & _ & _ & Hq & _). simpl in *.
    rewrite !marks_app, marks_log_received, app_nil_r. unfold marks. rewrite Htw, Hq.
    destruct (streamSid s) as [sid|] eqn:Esid; simpl.
    + destruct (negb (String.eqb sid EmptyString)) eqn:Et; simpl; [|by right].
      left. by exists sid.
    + by right.
  - (* a telephony message *)
    right. unfold onConnectionMessage. destruct message as [|data]; [done|].
    destruct (String.eqb (event data) "media").
    { destruct (media data); simpl; [|done].
      unfold timing_log, SHOW_TIMING_MATH. by destruct (is_open (openAiWs s)). }
    destruct (String.eqb (event data) "start").
    { by destruct (start data). }
    destruct (String.eqb (event data) "mark"); [|done].
    destruct (markQueue s) as [|tok q] eqn:Eq; simpl; rewrite ?Eq; simpl;
      split; (done || lia).
  - (* the telephony socket closes *)
    right. unfold onConnectionClose. simpl. by destruct (is_open (openAiWs s)).
  - (* time passes *)
    right. unfold elapse.
    pose proof (fire_frame (now s + ms) (timers s) s) as (_ & _ & _ & A4 & A5 & _).
    destruct (fire (now s + ms) (timers s) s) as [e s']. simpl in *.
    unfold marks. by rewrite A5, A4.
Qed.

(** Before any start frame nothing is marked. *)
Lemma run_before_start evs s :
  no_start evs = true ->
  streamSid s = None -> markQueue s = [] ->
  streamSid (snd (run reencode evs s)) = None /\
  markQueue (snd (run reencode evs s)) = [] /\
  marks (fst (run reencode evs s)) = [].
Proof.
  revert s. induction evs as [|ev evs IH]; intros s Hns Hsid Hq; [done|].
  simpl in Hns. apply andb_true_iff in Hns as [Hev Hevs].
  apply negb_true_iff in Hev.
  rewrite run_cons. cbn [fst snd].
  pose proof (step_streamSid ev s Hev) as Hsid1. rewrite Hsid in Hsid1.
  assert (Hstep : marks (fst (step reencode ev s)) = [] /\
                  markQueue (snd (step reencode ev s)) = []).
  { destruct (step_marks ev s) as [(sid & _ & Hs & _)|[Hm Hlen]]; [congruence|].
    split; [done|]. rewrite Hq in Hlen.
    destruct (markQueue (snd (step reencode ev s))); [done|simpl in Hlen; lia]. }
  destruct Hstep as [Hm1 Hq1].
  destruct (IH _ Hevs Hsid1 Hq1) as (A1 & A2 & A3).
  by rewrite marks_app, Hm1, A3.
Qed.

(** C10: [sendMark] sends a mark frame exactly when it appends a token, and
    does both exactly when its [streamSid] is truthy; every event either
    sends one mark frame and appends one token, with [streamSid] set, or
    does neither; and on a connection that has received no start frame, no
    mark frame has been sent, [markQueue] is empty, and an audio delta still
    sends its media frame, with a null [streamSid], leaves
    [responseStartTimestampTwilio] set and [markQueue] empty and sends no
    mark. *)
Theorem marks_follow_streamSid :
  (forall sid s,
     let '(e, s') := sendMark sid s in
     if truthy sid
     then e = [ConnectionSend (MarkFrame (default EmptyString sid) "responsePart")] /\
          markQueue s' = markQueue s ++ ["responsePart"%string]
     else e = [] /\ s' = s) /\
  (forall ev s,
     (exists sid,
        marks (fst (step reencode ev s)) = [MarkFrame sid "responsePart"] /\
        streamSid s = Some sid /\ truthy (Some sid) = true /\
        markQueue (snd (step reencode ev s))
          = markQueue s ++ ["responsePart"%string]) \/
     (marks (fst (step reencode ev s)) = [] /\
      (length (markQueue (snd (step reencode ev s))) <= length (markQueue s))%nat)) /\
  (forall registry ref (conv : Conv) t evs response d conv' item,
     let before := run reencode evs (connect registry ref conv t) in
     let after := onOpenAiMessage reencode (Parsed response) (snd before) in
     no_start evs = true ->
     type response = "response.audio.delta"%string ->
     delta response = Some d ->
     truthy (Some d) = true ->
     processEvent (conversation (snd before)) response = (conv', Returned item) ->
     marks (fst before) = [] /\
     markQueue (snd before) = [] /\
     streamSid (snd before) = None /\
     sent_to_twilio (fst after) = [MediaFrame None (reencode d)] /\
     responseStartTimestampTwilio (snd after) <> None /\
     markQueue (snd after) = []).
Proof.
  split; [apply sendMark_spec|]. split; [apply step_marks|].
  intros registry ref conv t evs response d conv' item before after Hns.
  pose proof (run_before_start evs (connect registry ref conv t) Hns eq_refl eq_refl)
    as (Hsid & Hq & Hm).
  fold before in Hsid, Hq, Hm. unfold after. clear after.
  destruct before as [e s]. cbn [fst snd] in *. intros Hty Hd Ht Hp.
  rewrite (onOpenAiMessage_audio_delta response d conv' item s Hty Hd Ht Hp).
  pose proof (onAudioDelta_spec d item (set_conversation conv' s)) as Hspec.
  destruct (onAudioDelta reencode d item (set_conversation conv' s)) as [e' s'].
  destruct Hspec as (Htw & _ & Hrs & _ & Hq' & _). simpl in *.
  rewrite Hsid in Htw, Hq'. simpl in *.
  repeat split; try done; [|congruence].
  rewrite Hrs. by destruct (responseStartTimestampTwilio s) as [r|]; simpl;
    [destruct (r =? 0)|].
Qed.

(** *** The first scenario *)

Lemma start_frame_step sid s :
  step reencode (start_frame sid) s =
  ([ConsoleLog "Incoming stream has started"],
   set_latestMediaTimestamp 0
     (set_responseStartTimestampTwilio None
        (set_activeConversations
           (<[sid := conversation_ref s]> (activeConversations s))
           (set_streamSid (Some sid) s)))).
Proof. reflexivity. Qed.

Lemma clears_log_received response : clears (log_received response) = [].
Proof. unfold clears. by rewrite log_received_twilio. Qed.

(** When the tracker does return an item for the audio delta: from any
    state, a start frame for "CA1", a media frame stamped 0, an audio delta
    for which the tracker returns item "I1", and speech-started: the response
    start is recorded as 0, which is not null, so the interruption fires: one
    truncate command is sent, for "I1" with cut-off 0, and one clear frame,
    for "CA1". *)
Lemma known_item_is_truncated_at_zero s response d conv1 heard conv2 item p :
  type response = "response.audio.delta"%string ->
  delta response = Some d ->
  truthy (Some d) = true ->
  processEvent (conversation s) response = (conv1, Returned (Some {| id := "I1" |})) ->
  type heard = "input_audio_buffer.speech_started"%string ->
  processEvent conv1 heard = (conv2, Returned item) ->
  let e := fst (run reencode
                  [ start_frame "CA1";
                    media_frame {| timestamp := 0; payload := p |};
                    OpenAiMessage (Parsed response);
                    OpenAiMessage (Parsed heard) ] s) in
  truncates e = [ConversationItemTruncate "I1" 0 0] /\
  clears e = [ClearFrame (Some "CA1")].
Proof.
  intros Hty Hd Ht Hp1 Hty2 Hp2 e. unfold e. clear e.
  rewrite !run_cons. cbn [run fst snd].
  rewrite start_frame_step. cbn [fst snd].
  rewrite media_frame_step. cbn [fst snd timestamp payload].
  match goal with |- context [step reencode (OpenAiMessage (Parsed response)) ?st] =>
    set (s0 := st) end.
  assert (Hp1' : processEvent (conversation s0) response
                 = (conv1, Returned (Some {| id := "I1" |}))) by exact Hp1.
  cbn [step].
  rewrite (onOpenAiMessage_audio_delta response d conv1 _ s0 Hty Hd Ht Hp1').
  pose proof (onAudioDelta_spec d (Some {| id := "I1" |}) (set_conversation conv1 s0))
    as Hspec.
  destruct (onAudioDelta reencode d (Some {| id := "I1" |}) (set_conversation conv1 s0))
    as [e1 s1].
  destruct Hspec as (Htw & Hop & Hrs & Hit & Hq & Hlm & Hsd & Hcv).
  cbn [fst snd] in *. simpl in Htw, Hrs, Hit, Hq, Hlm, Hsd, Hcv.
  assert (Hp2' : processEvent (conversation s1) heard = (conv2, Returned item))
    by (by rewrite Hcv).
  rewrite (onOpenAiMessage_speech_started heard conv2 item s1 Hty2 Hp2').
  cbn [fst snd].
  assert (Hq1 : markQueue (set_conversation conv2 s1) <> []).
  { simpl. rewrite Hq. by destruct (markQueue s). }
  assert (Hr1 : responseStartTimestampTwilio (set_conversation conv2 s1) = Some 0)
    by exact Hrs.
  rewrite (handleSpeechStartedEvent_fires (set_conversation conv2 s1) 0 Hq1 Hr1).
  cbn [fst snd].
  rewrite !truncates_app, !clears_app, truncates_log_received, clears_log_received.
  unfold truncates, clears. rewrite ?sent_to_openai_app, ?sent_to_twilio_app, Hop, Htw.
  simpl. rewrite Hit, Hlm, Hsd. simpl.
  by destruct (is_open (openAiWs s)).
Qed.

End Properties.

(** ** The properties at work *)

(** The barge-in of the second scenario. *)
Lemma truncation_cutoff_witness :
  truncates (fst (handleSpeechStartedEvent playing))
    = [ConversationItemTruncate "I1" 0 (1800 - 1000)] /\
  Forall cutoff_nonneg
    (sent_to_openai
       (fst (run canonical
               [ start_frame "CA1";
                 media_frame {| timestamp := 0; payload := "a" |};
                 OpenAiMessage (Parsed (audio_delta "I1" "AAAA"));
                 media_frame {| timestamp := 40; payload := "b" |};
                 OpenAiMessage (Parsed speech_started) ]
               (connect ∅ 0%nat tt 0%N)))) /\
  truncates
    (fst (run canonical
            [ OpenAiMessage (Parsed (audio_delta "I1" "AAAA"));
              media_frame {| timestamp := 1800; payload := "a" |};
              OpenAiMessage (Parsed speech_started) ] at_1000))
    = [ConversationItemTruncate "I1" 0 800].
Proof.
  destruct (truncation_cutoff canonical) as (A & B & C).
  split; [|split].
  - apply (A playing 1000); [vm_compute; discriminate|reflexivity].
  - apply B. reflexivity.
  - apply (C at_1000 (audio_delta "I1" "AAAA") "AAAA"%string tt speech_started tt None);
      reflexivity.
Defined.

Lemma interruption_resets_and_clears_witness :
  let '(e, s') := handleSpeechStartedEvent playing in
  markQueue s' = [] /\
  lastAssistantItem s' = None /\
  responseStartTimestampTwilio s' = None /\
  sent_to_twilio e = [ClearFrame (streamSid playing)] /\
  streamSid s' = streamSid playing.
Proof.
  apply (interruption_resets_and_clears playing); vm_compute; discriminate.
Defined.

Lemma speech_started_idle_is_noop_witness :
  handleSpeechStartedEvent at_1000 = ([], at_1000) /\
  let '(e, s') := onOpenAiMessage canonical (Parsed speech_started) at_1000 in
  sent_to_openai e = [] /\ sent_to_twilio e = [] /\
  markQueue s' = markQueue at_1000 /\
  lastAssistantItem s' = lastAssistantItem at_1000 /\
  responseStartTimestampTwilio s' = responseStartTimestampTwilio at_1000 /\
  latestMediaTimestamp s' = latestMediaTimestamp at_1000 /\
  streamSid s' = streamSid at_1000.
Proof.
  destruct (speech_started_idle_is_noop canonical at_1000 (or_introl eq_refl))
    as [A B].
  split; [exact A|exact (B speech_started eq_refl)].
Defined.

(** C4, where the code departs from it: the first chunk of a response
    arrives while the clock shows 0 and records 0 as the response start; the
    test [!responseStartTimestampTwilio] of the next chunk takes that 0 for
    "not set" and records the start again, now 20. *)
Theorem response_start_overwritten_after_zero :
  let s1 := snd (run canonical first_chunk_at_zero fresh) in
  let s2 := snd (run canonical second_chunk_at_20 s1) in
  responseStartTimestampTwilio s1 = Some 0 /\
  responseStartTimestampTwilio s2 = Some 20.
Proof. split; reflexivity. Qed.

(** With both sockets open, the close of the OpenAI socket leaves the
    telephony socket open and asks nothing of it. *)
Lemma openai_close_leaves_telephony_open :
  connection at_1000 = OPEN /\
  connection (snd (step canonical OpenAiClose at_1000)) = OPEN /\
  fst (step canonical OpenAiClose at_1000)
    = [ConsoleLog "Disconnected from the OpenAI Realtime API"].
Proof. repeat split; reflexivity. Qed.

Lemma eviction_after_grace_period_witness :
  let closed :=
    snd (run canonical
           ([OpenAiOpen] ++ start_frame "CA1"
            :: [ media_frame {| timestamp := 20; payload := "a" |};
                 OpenAiMessage (Parsed (audio_delta "I1" "AAAA")) ]
            ++ [ConnectionClose])
           (connect ∅ 7%nat tt 0%N)) in
  activeConversations (snd (run canonical [Elapse 299999] closed)) !! "CA1"%string
    = Some 7%nat /\
  activeConversations
    (snd (run canonical [Elapse 200000; OpenAiClose; Elapse 100001] closed))
    !! "CA1"%string = None.
Proof.
  split.
  - apply (eviction_after_grace_period canonical ∅ 7%nat tt 0%N
             [OpenAiOpen] "CA1"%string
             [ media_frame {| timestamp := 20; payload := "a" |};
               OpenAiMessage (Parsed (audio_delta "I1" "AAAA")) ]
             [Elapse 299999]); reflexivity.
  - apply (eviction_after_grace_period canonical ∅ 7%nat tt 0%N
             [OpenAiOpen] "CA1"%string
             [ media_frame {| timestamp := 20; payload := "a" |};
               OpenAiMessage (Parsed (audio_delta "I1" "AAAA")) ]
             [Elapse 200000; OpenAiClose; Elapse 100001]); reflexivity.
Defined.

Lemma marks_follow_streamSid_witness :
  let before :=
    run canonical
        [ OpenAiOpen; media_frame {| timestamp := 20; payload := "a" |} ]
        (connect ∅ 0%nat tt 0%N) in
  let after :=
    onOpenAiMessage canonical (Parsed (audio_delta "I1" "AAAA")) (snd before) in
  marks (fst before) = [] /\
  markQueue (snd before) = [] /\
  streamSid (snd before) = None /\
  sent_to_twilio (fst after) = [MediaFrame None (canonical "AAAA")] /\
  responseStartTimestampTwilio (snd after) <> None /\
  markQueue (snd after) = [].
Proof.
  destruct (marks_follow_streamSid canonical) as (_ & _ & C).
  apply (C ∅ 0%nat tt 0%N
           [ OpenAiOpen; media_frame {| timestamp := 20; payload := "a" |} ]
           (audio_delta "I1" "AAAA") "AAAA"%string tt (Some {| id := "I1" |}));
    reflexivity.
Defined.

(** * Further properties of the bridge *)

Section Further.

Context {Conv : Type} `{RealtimeConversation Conv}.
Variable reencode : string -> string.

Implicit Types (s : State Conv) (evs : list Event).

(** Split a conjunction of equations and small inequalities and close the
    parts by computation. *)
Ltac parts := repeat split; simpl; try done; try lia.

(** ** What goes to which socket *)

Lemma appends_app (a b : list Effect) : appends (a ++ b) = appends a ++ appends b.
Proof. unfold appends. by rewrite sent_to_openai_app, omap_app. Qed.

Lemma session_updates_app (a b : list Effect) :
  session_updates (a ++ b) = session_updates a ++ session_updates b.
Proof. unfold session_updates. rewrite sent_to_openai_app. apply List.filter_app. Qed.

Lemma medias_app (a b : list Effect) : medias (a ++ b) = medias a ++ medias b.
Proof. unfold medias. rewrite sent_to_twilio_app. apply List.filter_app. Qed.

(** An interruption sends OpenAI at most one command, a well-formed
    truncate, and never more truncates than clears. *)
Lemma handleSpeechStartedEvent_sends s :
  let e := fst (handleSpeechStartedEvent s) in
  appends e = [] /\ session_updates e = [] /\
  Forall truncate_shape (sent_to_openai e) /\
  (length (truncates e) <= length (clears e))%nat /\
  medias e = [] /\
  openAiWs (snd (handleSpeechStartedEvent s)) = openAiWs s.
Proof.
  unfold handleSpeechStartedEvent.
  destruct (markQueue s) as [|tok q]; [parts|].
  destruct (responseStartTimestampTwilio s) as [r|]; [|parts].
  unfold timing_log, SHOW_TIMING_MATH.
  destruct (lastAssistantItem s) as [item|]; simpl;
    [|repeat split; simpl; (done || lia)].
  destruct (String.eqb item EmptyString) eqn:E; simpl;
    [repeat split; simpl; (done || lia)|].
  apply String.eqb_neq in E. repeat split; simpl; try done; try lia.
  by repeat constructor.
Qed.

(** An OpenAI message never makes the bridge append audio or update the
    session. *)
Lemma onOpenAiMessage_sends data s :
  let e := fst (onOpenAiMessage reencode data s) in
  appends e = [] /\ session_updates e = [] /\
  Forall truncate_shape (sent_to_openai e) /\
  (length (truncates e) <= length (clears e))%nat.
Proof.
  unfold onOpenAiMessage. destruct data as [|response]; [parts|].
  destruct (processEvent (conversation s) response) as [conv [|item]].
  { simpl. unfold appends, session_updates, truncates.
    rewrite log_received_openai. parts. }
  set (s0 := set_conversation conv s).
  assert (H1 : exists e1 s1,
    (match delta response with
     | Some d => if String.eqb (type response) "response.audio.delta" && truthy (Some d)
                 then onAudioDelta reencode d item s0 else ([], s0)
     | None => ([], s0)
     end) = (e1, s1) /\ sent_to_openai e1 = []).
  { destruct (delta response) as [d|]; [|by eexists _, _].
    destruct (_ && _); [|by eexists _, _].
    pose proof (onAudioDelta_spec reencode d item s0) as Hspec.
    destruct (onAudioDelta reencode d item s0) as [e1 s1].
    destruct Hspec as (_ & Hop & _). by eexists _, _. }
  destruct H1 as (e1 & s1 & -> & He1).
  assert (Hfirst : sent_to_openai (log_received response ++ e1) = [])
    by (by rewrite sent_to_openai_app, log_received_openai, He1).
  destruct (String.eqb (type response) "input_audio_buffer.speech_started").
  - pose proof (handleSpeechStartedEvent_sends s1) as (A1 & A2 & A3 & A4 & _).
    destruct (handleSpeechStartedEvent s1) as [e2 s2]. cbn [fst snd] in *.
    rewrite app_assoc, clears_app, length_app.
    unfold appends, session_updates, truncates in *.
    rewrite (sent_to_openai_app (log_received response ++ e1) e2), Hfirst.
    cbn [app]. repeat split; try done. lia.
  - cbn [fst snd]. rewrite app_assoc, app_nil_r.
    unfold appends, session_updates, truncates. rewrite Hfirst.
    repeat split; try done. simpl. lia.
Qed.

(** A telephony message sends nothing to Twilio, and to OpenAI only the
    payload of a media frame, when the OpenAI socket is open. *)
Lemma onConnectionMessage_sends message s :
  let e := fst (onConnectionMessage message s) in
  sent_to_twilio e = [] /\
  sent_to_openai e =
    (if is_open (openAiWs s)
     then InputAudioBufferAppend <$> option_list (media_payload (ConnectionMessage message))
     else []) /\
  openAiWs (snd (onConnectionMessage message s)) = openAiWs s.
Proof.
  unfold onConnectionMessage, media_payload.
  destruct message as [|data]; [by destruct (is_open (openAiWs s))|].
  destruct (String.eqb (event data) "media").
  { destruct (media data) as [m|]; simpl; [|by destruct (is_open (openAiWs s))].
    unfold timing_log, SHOW_TIMING_MATH. by destruct (is_open (openAiWs s)). }
  destruct (String.eqb (event data) "start").
  { destruct (start data); simpl; by destruct (is_open (openAiWs s)). }
  destruct (String.eqb (event data) "mark").
  { destruct (markQueue s); simpl; by destruct (is_open (openAiWs s)). }
  simpl. by destruct (is_open (openAiWs s)).
Qed.

(** The timers that run send OpenAI one [session.update] for each
    [initializeSession] among them, and nothing else. *)
Lemma fire_sends (t : N) (q : list (N * Callback)) s :
  sent_to_openai (fst (fire t q s)) = replicate (fired_inits t q) SessionUpdate /\
  openAiWs (snd (fire t q s)) = openAiWs s.
Proof.
  revert s. induction q as [|[due cb] q IH]; intros s; simpl; [done|].
  destruct (due <=? t)%N; [|done].
  assert (Hcb : sent_to_openai (fst (runCallback cb (set_timers q s)))
                = replicate (match cb with InitializeSession => 1 | _ => 0 end)
                            SessionUpdate /\
                openAiWs (snd (runCallback cb (set_timers q s))) = openAiWs s).
  { destruct cb; simpl; [done|].
    destruct (streamSid s) as [sid|]; [|done].
    by destruct (negb (String.eqb sid EmptyString)). }
  destruct (runCallback cb (set_timers q s)) as [e1 s1]. cbn [fst snd] in Hcb.
  destruct Hcb as [He1 Ho1].
  destruct (IH s1) as [He2 Ho2]. destruct (fire t q s1) as [e2 s2].
  cbn [fst snd] in *. split; [|congruence].
  rewrite sent_to_openai_app, He1, He2. by rewrite <- replicate_add.
Qed.

Lemma appends_replicate_update (n : nat) :
  omap (fun c => match c with InputAudioBufferAppend a => Some a | _ => None end)
       (replicate n SessionUpdate) = [].
Proof. by induction n. Qed.

(** What one event appends to OpenAI's input buffer. *)
Lemma step_appends ev s :
  appends (fst (step reencode ev s)) =
  if is_open (openAiWs s) then option_list (media_payload ev) else [].
Proof.
  destruct ev; cbn [step].
  - by destruct (is_open (openAiWs s)).
  - pose proof (onOpenAiMessage_sends data s) as (A1 & _).
    rewrite A1. by destruct (is_open (openAiWs s)).
  - by destruct (is_open (openAiWs s)).
  - by destruct (is_open (openAiWs s)).
  - pose proof (onConnectionMessage_sends message s) as (_ & A2 & _).
    unfold appends. rewrite A2.
    destruct (is_open (openAiWs s)); [|done].
    by destruct (media_payload (ConnectionMessage message)).
  - unfold onConnectionClose. simpl. by destruct (is_open (openAiWs s)).
  - unfold elapse.
    pose proof (fire_sends (now s + ms) (timers s) s) as [A1 _].
    destruct (fire (now s + ms) (timers s) s) as [e s']. cbn [fst snd] in *.
    unfold appends. rewrite A1, appends_replicate_update.
    by destruct (is_open (openAiWs s)).
Qed.

(** How one event moves the OpenAI socket. *)
Lemma step_openAiWs ev s :
  openAiWs (snd (step reencode ev s)) =
  match ev with
  | OpenAiOpen => OPEN
  | OpenAiClose => CLOSED
  | ConnectionClose => if is_open (openAiWs s) then CLOSING else openAiWs s
  | _ => openAiWs s
  end.
Proof.
  destruct ev; simpl; try done.
  - apply onOpenAiMessage_frame.
  - apply onConnectionMessage_sends.
  - unfold onConnectionClose. simpl. by destruct (is_open (openAiWs s)).
  - unfold elapse.
    pose proof (fire_sends (now s + ms) (timers s) s) as [_ A2].
    by destruct (fire (now s + ms) (timers s) s).
Qed.

(** X1: while the OpenAI socket stays open, the audio appended to OpenAI's
    input buffer is exactly the payloads of the media frames received, in the
    order received: none is lost, repeated or altered. *)
Theorem audio_forwarded_while_open evs s :
  openAiWs s = OPEN ->
  stays_open evs = true ->
  appends (fst (run reencode evs s)) = media_payloads evs.
Proof.
  revert s. induction evs as [|ev evs IH]; intros s Hopen Hstay; [done|].
  simpl in Hstay. apply andb_true_iff in Hstay as [Hev Hevs].
  apply andb_true_iff in Hev as [Hnc Hnq].
  rewrite run_cons. cbn [fst]. rewrite appends_app, step_appends, Hopen.
  rewrite IH; [|rewrite step_openAiWs; by destruct ev|done].
  unfold media_payloads. simpl. by destruct (media_payload ev).
Qed.

(** X2: until the OpenAI socket opens, the audio of the caller is
    discarded: no media frame received before then is appended, and none is
    kept for later (by X1 what is appended afterwards is what arrives
    afterwards). *)
Theorem audio_dropped_until_open evs s :
  is_open (openAiWs s) = false ->
  no_openai_open evs = true ->
  appends (fst (run reencode evs s)) = [] /\
  is_open (openAiWs (snd (run reencode evs s))) = false.
Proof.
  revert s. induction evs as [|ev evs IH]; intros s Hclosed Hno; [done|].
  simpl in Hno. apply andb_true_iff in Hno as [Hev Hevs].
  rewrite run_cons. cbn [fst snd]. rewrite appends_app, step_appends, Hclosed.
  apply IH; [|done]. rewrite step_openAiWs.
  destruct ev; try done. by rewrite Hclosed.
Qed.

(** ** Truncation and clearing *)

Lemma replicate_update_shape (n : nat) :
  Forall truncate_shape (replicate n SessionUpdate) /\
  List.filter is_truncate (replicate n SessionUpdate) = [].
Proof. induction n as [|n [IH1 IH2]]; simpl; [done|]. split; [by constructor|done]. Qed.

Lemma step_truncates ev s :
  let e := fst (step reencode ev s) in
  Forall truncate_shape (sent_to_openai e) /\
  (length (truncates e) <= length (clears e))%nat.
Proof.
  destruct ev; cbn [step].
  - parts.
  - pose proof (onOpenAiMessage_sends data s) as (_ & _ & A3 & A4). done.
  - parts.
  - parts.
  - pose proof (onConnectionMessage_sends message s) as (A1 & A2 & _).
    cbv zeta. unfold truncates, clears. rewrite A1, A2.
    destruct (is_open (openAiWs s)); [|parts].
    destruct (media_payload (ConnectionMessage message)); parts.
    by repeat constructor.
  - unfold onConnectionClose. simpl. destruct (is_open (openAiWs s)); parts.
  - unfold elapse.
    pose proof (fire_sends (now s + ms) (timers s) s) as [A1 _].
    destruct (fire (now s + ms) (timers s) s) as [e s']. cbn [fst snd] in *.
    unfold truncates. rewrite A1.
    destruct (replicate_update_shape (fired_inits (now s + ms) (timers s))) as [B1 B2].
    rewrite B2. split; [done|simpl; lia].
Qed.

(** X3: whatever happens, every truncate command sent to OpenAI names a
    non-empty item with content index 0, and the bridge never sends more
    truncate commands than clear frames: OpenAI is never told that a response
    was cut short without Twilio being told to drop what it has buffered. *)
Theorem truncate_never_without_clear evs s :
  let e := fst (run reencode evs s) in
  Forall truncate_shape (sent_to_openai e) /\
  (length (truncates e) <= length (clears e))%nat.
Proof.
  revert s. induction evs as [|ev evs IH]; intros s; [parts|].
  cbv zeta. rewrite run_cons. cbn [fst].
  destruct (step_truncates ev s) as [A1 A2].
  destruct (IH (snd (step reencode ev s))) as [B1 B2].
  rewrite sent_to_openai_app, truncates_app, clears_app, !length_app.
  split; [by apply Forall_app|lia].
Qed.

(** ** Who triggers what *)

Lemma step_twilio_source ev s :
  is_openai_message ev = false ->
  sent_to_twilio (fst (step reencode ev s)) = [].
Proof.
  intros Hev. destruct ev; cbn [step]; try done.
  - apply onConnectionMessage_sends.
  - unfold onConnectionClose. simpl. by destruct (is_open (openAiWs s)).
  - unfold elapse.
    pose proof (fire_frame (now s + ms) (timers s) s) as (_ & _ & _ & _ & A5 & _).
    by destruct (fire (now s + ms) (timers s) s).
Qed.

Lemma step_appends_source ev s :
  is_connection_message ev = false ->
  appends (fst (step reencode ev s)) = [].
Proof.
  intros Hev. rewrite step_appends.
  destruct ev; try done; by destruct (is_open (openAiWs s)).
Qed.

(** X4: frames go to Twilio only in reaction to messages from OpenAI, and
    audio is appended to OpenAI's buffer only in reaction to messages from
    Twilio: opening, closing, errors and timers send neither, so nothing is
    echoed back to the side it came from. *)
Theorem each_side_hears_only_the_other :
  (forall evs s,
     no_openai_message evs = true ->
     sent_to_twilio (fst (run reencode evs s)) = []) /\
  (forall evs s,
     no_connection_message evs = true ->
     appends (fst (run reencode evs s)) = []).
Proof.
  split; intros evs; induction evs as [|ev evs IH]; intros s Hno; try done;
    simpl in Hno; apply andb_true_iff in Hno as [Hev Hevs];
    apply negb_true_iff in Hev; rewrite run_cons; cbn [fst].
  - by rewrite sent_to_twilio_app, step_twilio_source, IH.
  - by rewrite appends_app, step_appends_source, IH.
Qed.

(** ** Media frames and marks *)

Lemma onOpenAiMessage_twilio data s :
  let e := fst (onOpenAiMessage reencode data s) in
  (length (marks e) <= length (medias e))%nat /\
  (truthy (streamSid s) = true -> length (marks e) = length (medias e)).
Proof.
  unfold onOpenAiMessage. destruct data as [|response]; [parts|].
  destruct (processEvent (conversation s) response) as [conv [|item]].
  { simpl. unfold marks, medias. rewrite log_received_twilio. parts. }
  set (s0 := set_conversation conv s).
  assert (H1 : exists e1 s1,
    (match delta response with
     | Some d => if String.eqb (type response) "response.audio.delta" && truthy (Some d)
                 then onAudioDelta reencode d item s0 else ([], s0)
     | None => ([], s0)
     end) = (e1, s1) /\
    (length (marks e1) <= length (medias e1))%nat /\
    (truthy (streamSid s) = true -> length (marks e1) = length (medias e1))).
  { destruct (delta response) as [d|]; [|eexists _, _; parts].
    destruct (_ && _); [|eexists _, _; parts].
    pose proof (onAudioDelta_spec reencode d item s0) as Hspec.
    destruct (onAudioDelta reencode d item s0) as [e1 s1].
    destruct Hspec as (Htw & _). eexists _, _. split; [done|].
    unfold marks, medias. rewrite Htw. simpl.
    destruct (streamSid s) as [sid|]; simpl; [|parts].
    destruct (negb (String.eqb sid EmptyString)); parts. }
  destruct H1 as (e1 & s1 & -> & Hle & Heq).
  assert (H2 : exists e2 s2,
    (if String.eqb (type response) "input_audio_buffer.speech_started"
     then handleSpeechStartedEvent s1 else ([], s1)) = (e2, s2) /\
    marks e2 = [] /\ medias e2 = []).
  { destruct (String.eqb (type response) "input_audio_buffer.speech_started");
      [|by eexists _, _].
    pose proof (handleSpeechStartedEvent_marks s1) as [A1 _].
    pose proof (handleSpeechStartedEvent_sends s1) as (_ & _ & _ & _ & A5 & _).
    destruct (handleSpeechStartedEvent s1) as [e2 s2]. by eexists _, _. }
  destruct H2 as (e2 & s2 & -> & Hm2 & Hd2). cbn [fst].
  rewrite !marks_app, !medias_app, marks_log_received, Hm2, Hd2, !app_nil_r.
  unfold medias at 1 3. rewrite log_received_twilio. simpl. done.
Qed.

Lemma step_twilio_pairs ev s :
  let e := fst (step reencode ev s) in
  (length (marks e) <= length (medias e))%nat /\
  (truthy (streamSid s) = true -> length (marks e) = length (medias e)).
Proof.
  destruct (is_openai_message ev) eqn:Hev.
  - destruct ev; try done. apply onOpenAiMessage_twilio.
  - cbv zeta. unfold marks, medias. rewrite (step_twilio_source ev s Hev). parts.
Qed.

(** X5: the bridge never asks Twilio for more marks than it sends media
    frames; and on a stream whose [streamSid] is set to a non-empty value and
    not changed, it asks for exactly one mark per media frame. *)
Theorem one_mark_per_media_frame evs s :
  let e := fst (run reencode evs s) in
  (length (marks e) <= length (medias e))%nat /\
  (truthy (streamSid s) = true -> no_start evs = true ->
   length (marks e) = length (medias e)).
Proof.
  revert s. induction evs as [|ev evs IH]; intros s; [parts|].
  cbv zeta. rewrite run_cons. cbn [fst].
  destruct (step_twilio_pairs ev s) as [A1 A2].
  destruct (IH (snd (step reencode ev s))) as [B1 B2].
  rewrite marks_app, medias_app, !length_app. split; [lia|].
  intros Hsid Hns. simpl in Hns. apply andb_true_iff in Hns as [Hev Hevs].
  apply negb_true_iff in Hev.
  rewrite A2, B2; [done| |done|done]. by rewrite step_streamSid.
Qed.

(** ** When an interruption can fire *)

Lemma onOpenAiMessage_not_delta response s :
  is_audio_delta response = false ->
  onOpenAiMessage reencode (Parsed response) s =
  let '(conv, outcome) := processEvent (conversation s) response in
  match outcome with
  | Threw => (log_received response, set_conversation conv s)
  | Returned _ =>
      if String.eqb (type response) "input_audio_buffer.speech_started"
      then (log_received response
              ++ fst (handleSpeechStartedEvent (set_conversation conv s)),
            snd (handleSpeechStartedEvent (set_conversation conv s)))
      else (log_received response, set_conversation conv s)
  end.
Proof.
  intros Hnd. unfold onOpenAiMessage, is_audio_delta in *.
  destruct (processEvent (conversation s) response) as [conv [|item]]; [done|].
  assert (Hskip : (match delta response with
                   | Some d =>
                       if String.eqb (type response) "response.audio.delta"
                          && truthy (Some d)
                       then onAudioDelta reencode d item (set_conversation conv s)
                       else ([], set_conversation conv s)
                   | None => ([], set_conversation conv s)
                   end) = ([], set_conversation conv s)).
  { destruct (delta response) as [d|]; [|done]. by rewrite Hnd. }
  rewrite Hskip.
  destruct (String.eqb (type response) "input_audio_buffer.speech_started").
  - by destruct (handleSpeechStartedEvent (set_conversation conv s)).
  - by rewrite app_nil_r.
Qed.

Lemma step_disarmed ev s :
  disarmed s ->
  no_audio_delta [ev] = true ->
  truncates (fst (step reencode ev s)) = [] /\
  clears (fst (step reencode ev s)) = [] /\
  disarmed (snd (step reencode ev s)).
Proof.
  intros Hd Hev. unfold no_audio_delta in Hev. simpl in Hev.
  rewrite andb_true_r in Hev.
  destruct ev; cbn [step].
  - by repeat split.
  - destruct data as [|response]; [by repeat split|].
    apply negb_true_iff in Hev.
    rewrite (onOpenAiMessage_not_delta response s Hev).
    destruct (processEvent (conversation s) response) as [conv [|item]].
    { cbn [fst snd]. by rewrite truncates_log_received, clears_log_received. }
    destruct (String.eqb (type response) "input_audio_buffer.speech_started").
    + rewrite (handleSpeechStartedEvent_idle (set_conversation conv s)) by exact Hd.
      cbn [fst snd].
      by rewrite app_nil_r, truncates_log_received, clears_log_received.
    + cbn [fst snd]. by rewrite truncates_log_received, clears_log_received.
  - by repeat split.
  - by repeat split.
  - pose proof (onConnectionMessage_sends message s) as (A1 & A2 & _).
    unfold truncates, clears. rewrite A1, A2. split; [|split; [done|]].
    { destruct (is_open (openAiWs s)); [|done].
      by destruct (media_payload (ConnectionMessage message)). }
    unfold onConnectionMessage, disarmed in *.
    destruct message as [|data]; [done|].
    destruct (String.eqb (event data) "media"); [by destruct (media data)|].
    destruct (String.eqb (event data) "start").
    { destruct (start data); [by right|done]. }
    destruct (String.eqb (event data) "mark"); [|done].
    destruct (markQueue s) as [|tok q] eqn:Eq; simpl; [by rewrite Eq; left|].
    destruct Hd as [Hd|Hd]; [done|by right].
  - unfold onConnectionClose. simpl.
    destruct (is_open (openAiWs s)); by repeat split.
  - unfold elapse.
    pose proof (fire_frame (now s + ms) (timers s) s) as (_ & _ & _ & A4 & A5 & _).
    pose proof (fire_clock (now s + ms) (timers s) s) as (_ & B2 & _).
    pose proof (fire_sends (now s + ms) (timers s) s) as [C1 _].
    destruct (fire (now s + ms) (timers s) s) as [e s']. cbn [fst snd] in *.
    unfold truncates, clears, disarmed in *. simpl. rewrite A4, A5, B2, C1.
    by destruct (replicate_update_shape (fired_inits (now s + ms) (timers s)))
      as [_ ->].
Qed.

Lemma run_disarmed evs s :
  disarmed s ->
  no_audio_delta evs = true ->
  truncates (fst (run reencode evs s)) = [] /\
  clears (fst (run reencode evs s)) = [] /\
  disarmed (snd (run reencode evs s)).
Proof.
  revert s. induction evs as [|ev evs IH]; intros s Hd Hno; [done|].
  assert (Hev : no_audio_delta [ev] = true /\ no_audio_delta evs = true).
  { unfold no_audio_delta in *. simpl in *.
    apply andb_true_iff in Hno as [-> ->]. done. }
  destruct Hev as [Hev Hevs].
  destruct (step_disarmed ev s Hd Hev) as (A1 & A2 & A3).
  destruct (IH _ A3 Hevs) as (B1 & B2 & B3).
  rewrite run_cons. cbn [fst snd].
  by rewrite truncates_app, clears_app, A1, A2, B1, B2.
Qed.

(** X6: an interruption needs an audio delta.  From a state in which
    [markQueue] is empty or no response start is recorded, no truncate command
    and no clear frame is sent, whatever else arrives (speech-started events,
    media, marks, start frames, timers), until OpenAI delivers an audio delta
    with a payload. *)
Theorem no_interruption_without_audio_delta evs s :
  disarmed s ->
  no_audio_delta evs = true ->
  truncates (fst (run reencode evs s)) = [] /\
  clears (fst (run reencode evs s)) = [] /\
  disarmed (snd (run reencode evs s)).
Proof. apply run_disarmed. Qed.

(** ** The mark queue *)

Lemma is_audio_delta_inv response :
  is_audio_delta response = true ->
  type response = "response.audio.delta"%string /\
  exists d, delta response = Some d /\ truthy (Some d) = true.
Proof.
  unfold is_audio_delta. intros Hd. apply andb_true_iff in Hd as [Hty Ht].
  apply String.eqb_eq in Hty. split; [done|].
  destruct (delta response) as [d|]; [by exists d|done].
Qed.

(** Audio deltas on a started stream queue one token each. *)
Lemma run_deltas (rs : list Response) s :
  never_throws Conv ->
  truthy (streamSid s) = true ->
  forallb is_audio_delta rs = true ->
  markQueue (snd (run reencode (map openai_message rs) s))
    = markQueue s ++ replicate (length rs) "responsePart"%string /\
  streamSid (snd (run reencode (map openai_message rs) s)) = streamSid s.
Proof.
  intros Htotal. revert s. induction rs as [|r rs IH]; intros s Hsid Hrs.
  { simpl. by rewrite app_nil_r. }
  simpl in Hrs. apply andb_true_iff in Hrs as [Hr Hrs].
  destruct (is_audio_delta_inv r Hr) as (Hty & d & Hd & Ht).
  destruct (Htotal (conversation s) r) as (conv & item & Hp).
  change (map openai_message (r :: rs))
    with (OpenAiMessage (Parsed r) :: map openai_message rs).
  rewrite run_cons. cbn [snd step].
  rewrite (onOpenAiMessage_audio_delta reencode r d conv item s Hty Hd Ht Hp).
  pose proof (onAudioDelta_spec reencode d item (set_conversation conv s)) as Hspec.
  destruct (onAudioDelta reencode d item (set_conversation conv s)) as [e1 s1].
  destruct Hspec as (_ & _ & _ & _ & Hq & _ & Hs & _). cbn [fst snd] in *.
  simpl in Hq, Hs. rewrite Hsid in Hq.
  destruct (IH s1) as [A1 A2]; [by rewrite Hs|done|].
  rewrite A1, A2, Hq, Hs. split; [|done].
  by rewrite <- app_assoc.
Qed.

(** Acknowledgments take tokens off the front, and stop at the empty
    queue. *)
Lemma run_mark_acks (n : nat) s :
  markQueue (snd (run reencode (replicate n mark_ack) s)) = drop n (markQueue s).
Proof.
  revert s. induction n as [|n IH]; intros s; [by rewrite drop_0|].
  change (replicate (S n) mark_ack) with (mark_ack :: replicate n mark_ack).
  rewrite run_cons. cbn [snd]. rewrite IH.
  unfold mark_ack. cbn [step onConnectionMessage event]. simpl.
  by destruct (markQueue s) as [|tok q] eqn:Eq; simpl; rewrite ?Eq, ?drop_nil.
Qed.

Lemma all_tokens_replicate (q : list string) :
  Forall (eq "responsePart"%string) q ->
  q = replicate (length q) "responsePart"%string.
Proof.
  induction 1 as [|tok q Htok _ IH]; [done|]. simpl. by rewrite <- Htok, <- IH.
Qed.

Lemma step_tokens ev s :
  Forall (eq "responsePart"%string) (markQueue s) ->
  Forall (eq "responsePart"%string) (markQueue (snd (step reencode ev s))).
Proof.
  intros Hq.
  destruct (step_marks reencode ev s) as [(sid & _ & _ & _ & ->)|[_ Hlen]].
  { apply Forall_app. split; [done|by repeat constructor]. }
  destruct ev; cbn [step] in *; try done.
  - (* an OpenAI message that queues nothing leaves the queue or empties it *)
    revert Hlen. unfold onOpenAiMessage. destruct data as [|response]; [done|].
    destruct (processEvent (conversation s) response) as [conv [|item]]; [done|].
    set (s0 := set_conversation conv s).
    assert (H1 : exists e1 s1,
      (match delta response with
       | Some d => if String.eqb (type response) "response.audio.delta" && truthy (Some d)
                   then onAudioDelta reencode d item s0 else ([], s0)
       | None => ([], s0)
       end) = (e1, s1) /\
      Forall (eq "responsePart"%string) (markQueue s1)).
    { destruct (delta response) as [d|]; [|by eexists _, _].
      destruct (_ && _); [|by eexists _, _].
      pose proof (onAudioDelta_spec reencode d item s0) as Hspec.
      destruct (onAudioDelta reencode d item s0) as [e1 s1].
      destruct Hspec as (_ & _ & _ & _ & Hq1 & _). eexists _, _. split; [done|].
      rewrite Hq1. destruct (truthy (streamSid s0)); [|done].
      apply Forall_app. split; [done|by repeat constructor]. }
    destruct H1 as (e1 & s1 & -> & Hq1). intros _.
    destruct (String.eqb (type response) "input_audio_buffer.speech_started");
      [|done].
    unfold handleSpeechStartedEvent.
    destruct (markQueue s1) as [|tok q] eqn:Eq; [simpl; by rewrite Eq|].
    destruct (responseStartTimestampTwilio s1); simpl; [done|by rewrite Eq].
  - unfold onConnectionMessage. destruct message as [|data]; [done|].
    destruct (String.eqb (event data) "media"); [by destruct (media data)|].
    destruct (String.eqb (event data) "start"); [by destruct (start data)|].
    destruct (String.eqb (event data) "mark"); [|done].
    destruct (markQueue s) as [|tok q] eqn:Eq; simpl; [by rewrite Eq|].
    by inversion Hq.
  - unfold onConnectionClose. simpl. by destruct (is_open (openAiWs s)).
  - unfold elapse.
    pose proof (fire_frame (now s + ms) (timers s) s) as (_ & _ & _ & A4 & _).
    destruct (fire (now s + ms) (timers s) s) as [e s']. simpl in *. by rewrite A4.
Qed.

(** X8: the mark queue is a faithful count of what Twilio has not yet
    played.  On any connection every token in it is "responsePart"; on a
    started stream, [n] audio deltas followed by their [n] acknowledgments
    leave the queue exactly as it was; and acknowledgments that arrive on an
    empty queue are ignored. *)
Theorem mark_queue_round_trip :
  (forall registry ref (conv : Conv) t evs,
     Forall (eq "responsePart"%string)
            (markQueue (snd (run reencode evs (connect registry ref conv t))))) /\
  (forall (rs : list Response) s,
     never_throws Conv ->
     truthy (streamSid s) = true ->
     Forall (eq "responsePart"%string) (markQueue s) ->
     forallb is_audio_delta rs = true ->
     markQueue (snd (run reencode
                       (map openai_message rs ++ replicate (length rs) mark_ack) s))
     = markQueue s) /\
  (forall (n : nat) s,
     markQueue s = [] ->
     markQueue (snd (run reencode (replicate n mark_ack) s)) = []).
Proof.
  split; [|split].
  - intros registry ref conv t evs.
    apply (run_invariant reencode
             (fun s => Forall (eq "responsePart"%string) (markQueue s))
             (fun _ => true)).
    + intros ev s _. apply step_tokens.
    + by induction evs.
    + constructor.
  - intros rs s Htotal Hsid Hq Hrs.
    rewrite run_app. cbn [snd]. rewrite run_mark_acks.
    destruct (run_deltas rs s Htotal Hsid Hrs) as [-> _].
    rewrite (all_tokens_replicate _ Hq) at 1.
    rewrite <- replicate_add, drop_replicate.
    replace (length (markQueue s) + length rs - length rs)%nat
      with (length (markQueue s)) by lia.
    symmetry. by apply all_tokens_replicate.
  - intros n s Hq. by rewrite run_mark_acks, Hq, drop_nil.
Qed.

(** ** The cut-off, in general *)

Lemma last_cons (a d : Z) (l : list Z) : List.last (a :: l) d = List.last l a.
Proof.
  revert a d. induction l as [|b l IH]; intros a d; [done|].
  change (List.last (a :: b :: l) d) with (List.last (b :: l) d).
  by rewrite !IH.
Qed.

(** Media frames move the clock and nothing else of the session. *)
Lemma run_media_frames_state (ms : list Media) s :
  let r := run reencode (map media_frame ms) s in
  latestMediaTimestamp (snd r) = clock_after ms (latestMediaTimestamp s) /\
  markQueue (snd r) = markQueue s /\
  responseStartTimestampTwilio (snd r) = responseStartTimestampTwilio s /\
  lastAssistantItem (snd r) = lastAssistantItem s /\
  streamSid (snd r) = streamSid s /\
  conversation (snd r) = conversation s /\
  truncates (fst r) = [] /\ clears (fst r) = [].
Proof.
  revert s. induction ms as [|m ms IH]; intros s; [done|].
  cbv zeta. change (map media_frame (m :: ms)) with (media_frame m :: map media_frame ms).
  rewrite run_cons, media_frame_step. cbn [fst snd].
  destruct (IH (set_latestMediaTimestamp (timestamp m) s))
    as (A1 & A2 & A3 & A4 & A5 & A6 & A7 & A8).
  rewrite A1, A2, A3, A4, A5, A6, truncates_app, clears_app, A7, A8.
  unfold clock_after. simpl map. rewrite last_cons.
  repeat split; by destruct (is_open (openAiWs s)).
Qed.

(** X9: the cut-off of a barge-in.  On a started stream with no response
    start recorded, an audio delta for which the tracker returns an item with
    a non-empty id, then any number of media frames, then speech-started: the
    bridge sends exactly one truncate command, for that item, whose cut-off
    is the last media timestamp minus the clock at the delta (0 if no media
    frame came in between), and exactly one clear frame, for the stream. *)
Theorem barge_in_cutoff s response d conv1 it heard conv2 item (ms : list Media) :
  falsy_number (responseStartTimestampTwilio s) = true ->
  truthy (streamSid s) = true ->
  type response = "response.audio.delta"%string ->
  delta response = Some d ->
  truthy (Some d) = true ->
  processEvent (conversation s) response = (conv1, Returned (Some it)) ->
  id it <> EmptyString ->
  type heard = "input_audio_buffer.speech_started"%string ->
  processEvent conv1 heard = (conv2, Returned item) ->
  let e := fst (run reencode
                  (openai_message response
                   :: map media_frame ms ++ [openai_message heard]) s) in
  truncates e =
    [ConversationItemTruncate (id it) 0
       (clock_after ms (latestMediaTimestamp s) - latestMediaTimestamp s)] /\
  clears e = [ClearFrame (streamSid s)].
Proof.
  intros Hf Hsid Hty Hd Ht Hp1 Hid Hty2 Hp2 e. unfold e. clear e.
  unfold openai_message. rewrite run_cons. cbn [fst snd step].
  rewrite (onOpenAiMessage_audio_delta reencode response d conv1 _ s Hty Hd Ht Hp1).
  pose proof (onAudioDelta_spec reencode d (Some it) (set_conversation conv1 s))
    as Hspec.
  destruct (onAudioDelta reencode d (Some it) (set_conversation conv1 s)) as [e1 s1].
  destruct Hspec as (Htw & Hop & Hrs & Hit & Hq & Hlm & Hsd & Hcv).
  cbn [fst snd] in *. simpl in Htw, Hrs, Hit, Hq, Hlm, Hsd, Hcv.
  rewrite Hf in Hrs. rewrite Hsid in Hq.
  rewrite run_app. cbn [fst snd].
  destruct (run_media_frames_state ms s1) as (A1 & A2 & A3 & A4 & A5 & A6 & A7 & A8).
  set (s2 := snd (run reencode (map media_frame ms) s1)) in *.
  rewrite run_cons. cbn [fst snd run step].
  assert (Hp2' : processEvent (conversation s2) heard = (conv2, Returned item))
    by (by rewrite A6, Hcv).
  rewrite (onOpenAiMessage_speech_started reencode heard conv2 item s2 Hty2 Hp2').
  cbn [fst snd].
  assert (Hq2 : markQueue (set_conversation conv2 s2) <> []).
  { simpl. rewrite A2, Hq. by destruct (markQueue s). }
  assert (Hr2 : responseStartTimestampTwilio (set_conversation conv2 s2)
                = Some (latestMediaTimestamp s)) by (simpl; by rewrite A3, Hrs).
  rewrite (handleSpeechStartedEvent_fires (set_conversation conv2 s2) _ Hq2 Hr2).
  cbn [fst snd]. simpl lastAssistantItem. simpl streamSid. simpl latestMediaTimestamp.
  rewrite A4, Hit, A5, Hsd, A1, Hlm.
  assert (Htr : truthy (Some (id it)) = true).
  { simpl. apply negb_true_iff. by apply String.eqb_neq. }
  rewrite Htr.
  rewrite !truncates_app, !clears_app, A7, A8, truncates_log_received,
    clears_log_received.
  unfold truncates at 1, clears at 1. rewrite Hop, Htw.
  simpl. split; [done|]. by rewrite Hsid.
Qed.

(** ** The registry and [/active-calls] *)

(** What a start message does to the state. *)
Lemma start_message_step data st s :
  String.eqb (event data) "media" = false ->
  String.eqb (event data) "start" = true ->
  start data = Some st ->
  streamSid (snd (step reencode (ConnectionMessage (Parsed data)) s))
    = Some (start_streamSid st) /\
  activeConversations (snd (step reencode (ConnectionMessage (Parsed data)) s))
    = <[start_streamSid st := conversation_ref s]> (activeConversations s).
Proof. intros Hm Hs Hst. cbn [step onConnectionMessage]. by rewrite Hm, Hs, Hst. Qed.

Lemma start_sid_inv ev sid :
  start_sid ev = Some sid ->
  exists data st,
    ev = ConnectionMessage (Parsed data) /\
    String.eqb (event data) "start" = true /\
    start data = Some st /\ start_streamSid st = sid.
Proof.
  destruct ev as [| | | |[|data]| |]; simpl; try done.
  destruct (String.eqb (event data) "start") eqn:Es; [|done].
  destruct (start data) as [st|] eqn:Est; [|done]. intros [= <-]. by exists data, st.
Qed.

Lemma start_not_media data :
  String.eqb (event data) "start" = true ->
  String.eqb (event data) "media" = false.
Proof.
  intros Hs. apply String.eqb_eq in Hs. by rewrite Hs.
Qed.

(** Timer callbacks touch no key but the connection's [streamSid]. *)
Lemma fire_registry_other (t : N) (q : list (N * Callback)) s (k : string) :
  (streamSid s <> Some k \/ k = EmptyString) ->
  activeConversations (snd (fire t q s)) !! k = activeConversations s !! k.
Proof.
  revert s. induction q as [|[due cb] q IH]; intros s Hk; simpl; [done|].
  destruct (due <=? t)%N; [|done].
  assert (Hcb : activeConversations (snd (runCallback cb (set_timers q s))) !! k
                = activeConversations s !! k /\
                streamSid (snd (runCallback cb (set_timers q s))) = streamSid s).
  { destruct cb; simpl; [done|].
    destruct (streamSid s) as [sid|] eqn:Esid; simpl; [|by rewrite Esid].
    destruct (String.eqb sid EmptyString) eqn:Ee; simpl; rewrite ?Esid; [done|].
    split; [|done]. apply lookup_delete_ne.
    apply String.eqb_neq in Ee. destruct Hk as [Hk|Hk]; congruence. }
  destruct (runCallback cb (set_timers q s)) as [e1 s1]. cbn [fst snd] in Hcb.
  destruct Hcb as [Hr Hs].
  specialize (IH s1). rewrite Hs in IH. specialize (IH Hk).
  destruct (fire t q s1) as [e2 s2]. cbn [snd] in *. congruence.
Qed.

Lemma step_registry_other ev s (k : string) :
  (streamSid s <> Some k \/ k = EmptyString) ->
  start_sid ev = None \/ (exists sid, start_sid ev = Some sid /\ sid <> k) ->
  activeConversations (snd (step reencode ev s)) !! k = activeConversations s !! k.
Proof.
  intros Hk Hev. destruct ev; try (cbn [step]; done).
  - pose proof (onOpenAiMessage_frame reencode data s) as (_ & A2 & _).
    cbn [step]. simpl in A2. by rewrite A2.
  - destruct (is_start (ConnectionMessage message)) eqn:Es.
    + destruct message as [|data]; [done|]. simpl in Es.
      destruct (start data) as [st|] eqn:Est.
      * destruct (start_message_step data st s (start_not_media data Es) Es Est)
          as [_ ->].
        destruct Hev as [Hev|(sid & Hev & Hne)]; simpl in Hev;
          rewrite Es, Est in Hev; [done|].
        injection Hev as <-. by rewrite lookup_insert_ne.
      * cbn [step onConnectionMessage].
        by rewrite (start_not_media data Es), Es, Est.
    + pose proof (onConnectionMessage_frame message s) as (_ & _ & _ & A4).
      cbn [step]. destruct (A4 Es) as [_ ->]. done.
  - cbn [step]. unfold onConnectionClose. simpl. by destruct (is_open (openAiWs s)).
  - cbn [step]. unfold elapse.
    pose proof (fire_registry_other (now s + ms) (timers s) s k Hk) as A1.
    by destruct (fire (now s + ms) (timers s) s).
Qed.

Lemma never_started_cons k ev evs :
  never_started k (ev :: evs) = true ->
  (start_sid ev = None \/ (exists sid, start_sid ev = Some sid /\ sid <> k)) /\
  never_started k evs = true.
Proof.
  unfold never_started, start_sids. simpl.
  destruct (start_sid ev) as [sid|]; simpl; [|by split; [left|]].
  intros Hn. apply andb_true_iff in Hn as [Hsid Hrest].
  split; [|done]. right. exists sid. split; [done|].
  apply negb_true_iff in Hsid. by apply String.eqb_neq.
Qed.

Lemma step_streamSid_other ev s (k : string) :
  streamSid s <> Some k ->
  start_sid ev = None \/ (exists sid, start_sid ev = Some sid /\ sid <> k) ->
  streamSid (snd (step reencode ev s)) <> Some k.
Proof.
  intros Hk Hev. destruct (is_start ev) eqn:Es.
  - destruct ev as [| | | |[|data]| |]; try done. simpl in Es.
    destruct (start data) as [st|] eqn:Est.
    + destruct (start_message_step data st s (start_not_media data Es) Es Est)
        as [-> _].
      destruct Hev as [Hev|(sid & Hev & Hne)]; simpl in Hev;
        rewrite Es, Est in Hev; [done|].
      injection Hev as <-. congruence.
    + cbn [step onConnectionMessage]. by rewrite (start_not_media data Es), Es, Est.
  - by rewrite step_streamSid.
Qed.

Lemma run_registry_other evs s (k : string) :
  streamSid s <> Some k ->
  never_started k evs = true ->
  activeConversations (snd (run reencode evs s)) !! k = activeConversations s !! k.
Proof.
  revert s. induction evs as [|ev evs IH]; intros s Hk Hn; [done|].
  apply never_started_cons in Hn as [Hev Hevs].
  rewrite run_cons. cbn [snd].
  rewrite IH; [|by apply step_streamSid_other|done].
  apply step_registry_other; [by left|done].
Qed.

(** X10: a connection touches no registry entry but those under the
    [streamSid]s its own start frames carry: the entry under any other key is,
    after any trace whatever, what it was when the connection was made.  A
    connection that receives no start frame leaves the registry untouched. *)
Theorem connection_touches_only_its_own_keys registry ref (conv : Conv) t evs :
  (forall k,
     never_started k evs = true ->
     activeConversations (snd (run reencode evs (connect registry ref conv t))) !! k
     = registry !! k) /\
  (no_start evs = true ->
   activeConversations (snd (run reencode evs (connect registry ref conv t)))
   = registry).
Proof.
  split.
  - intros k Hn. by rewrite run_registry_other.
  - intros Hns. apply map_eq. intros k. rewrite run_registry_other; [done..|].
    unfold never_started, start_sids.
    assert (Hnil : omap start_sid evs = []); [|by rewrite Hnil].
    clear -Hns. induction evs as [|ev evs IH]; [done|].
    simpl in Hns. apply andb_true_iff in Hns as [Hev Hevs].
    apply negb_true_iff in Hev. simpl.
    assert (Hnone : start_sid ev = None).
    { destruct ev as [| | | |[|data]| |]; try done. simpl in *. by rewrite Hev. }
    rewrite Hnone. by apply IH.
Qed.

(** Once the telephony socket sends no more messages, eviction can only
    remove the entry under the [streamSid] the connection holds, and only if
    that is not empty. *)
Lemma run_registry_after_close evs s (k : string) :
  no_connection_message evs = true ->
  (streamSid s <> Some k \/ k = EmptyString) ->
  activeConversations (snd (run reencode evs s)) !! k = activeConversations s !! k.
Proof.
  revert s. induction evs as [|ev evs IH]; intros s Hno Hk; [done|].
  simpl in Hno. apply andb_true_iff in Hno as [Hev Hevs].
  apply negb_true_iff in Hev.
  assert (Hns : is_start ev = false) by (by destruct ev).
  assert (Hsid : start_sid ev = None) by (by destruct ev).
  rewrite run_cons. cbn [snd].
  rewrite IH; [|done|by rewrite step_streamSid].
  apply step_registry_other; [done|by left].
Qed.

(** While the telephony socket is open nothing is ever deleted: an entry
    for this conversation stays. *)
Lemma step_keeps_entry ev s (k : string) :
  negb (is_close ev) = true ->
  registered s /\ activeConversations s !! k = Some (conversation_ref s) ->
  registered (snd (step reencode ev s)) /\
  activeConversations (snd (step reencode ev s)) !! k
    = Some (conversation_ref (snd (step reencode ev s))).
Proof.
  intros Hev [Hreg Hk]. split; [by apply step_registered|].
  rewrite step_conversation_ref.
  destruct (start_sid ev) as [sid|] eqn:Esid.
  - destruct (start_sid_inv ev sid Esid) as (data & st & -> & Hs & Hst & <-).
    destruct (start_message_step data st s (start_not_media data Hs) Hs Hst)
      as [_ ->].
    destruct (decide (start_streamSid st = k)) as [->|Hne].
    + apply lookup_insert_eq.
    + by rewrite lookup_insert_ne.
  - destruct ev; try (cbn [step]; done).
    + pose proof (onOpenAiMessage_frame reencode data s) as (_ & A2 & _).
      cbn [step]. simpl in A2. by rewrite A2.
    + destruct (is_start (ConnectionMessage message)) eqn:Es.
      * destruct message as [|data]; [done|]. simpl in Es, Esid.
        rewrite Es in Esid. destruct (start data) as [st|] eqn:Est; [done|].
        cbn [step onConnectionMessage].
        by rewrite (start_not_media data Es), Es, Est.
      * pose proof (onConnectionMessage_frame message s) as (_ & _ & _ & A4).
        cbn [step]. destruct (A4 Es) as [_ ->]. done.
    + cbn [step]. unfold elapse.
      destruct Hreg as (_ & Hnone & _).
      pose proof (fire_registry_early (now s + ms) (timers s) s) as A1.
      destruct (fire (now s + ms) (timers s) s) as [e s']. simpl in *.
      rewrite A1; [done|]. intros d Hd. by destruct (Hnone d).
Qed.

Lemma run_conversation_ref evs s :
  conversation_ref (snd (run reencode evs s)) = conversation_ref s.
Proof.
  revert s. induction evs as [|ev evs IH]; intros s; [done|].
  rewrite run_cons. cbn [snd]. by rewrite IH, step_conversation_ref.
Qed.

Lemma run_keeps_entry evs s (k : string) :
  no_close evs = true ->
  registered s ->
  activeConversations s !! k = Some (conversation_ref s) ->
  registered (snd (run reencode evs s)) /\
  activeConversations (snd (run reencode evs s)) !! k = Some (conversation_ref s).
Proof.
  intros Hnc Hreg Hk.
  rewrite <- (run_conversation_ref evs s).
  apply (run_invariant reencode
           (fun s' => registered s' /\
                      activeConversations s' !! k = Some (conversation_ref s'))
           (fun ev => negb (is_close ev))); [|done|done].
  intros ev s' Hev. by apply step_keeps_entry.
Qed.

(** What [/active-calls] answers. *)
Lemma activeCallsRoute_spec (registry : gmap string nat) :
  success (activeCallsRoute registry) = true /\
  totalCalls (activeCallsRoute registry) = size registry /\
  NoDup (calls (activeCallsRoute registry)) /\
  (forall sid, sid ∈ calls (activeCallsRoute registry) <-> is_Some (registry !! sid)).
Proof.
  unfold activeCallsRoute. simpl. repeat split.
  - by rewrite length_fmap, length_map_to_list.
  - apply NoDup_fst_map_to_list.
  - intros Hin. apply list_elem_of_fmap in Hin as ([k v] & -> & Hin).
    apply elem_of_map_to_list in Hin. by exists v.
  - intros [v Hv]. apply list_elem_of_fmap. exists (sid, v). split; [done|].
    by apply elem_of_map_to_list.
Qed.

Lemma run_started_entry registry ref (conv : Conv) t pre sid post :
  no_close pre = true ->
  no_close post = true ->
  let s := snd (run reencode (pre ++ start_frame sid :: post)
                    (connect registry ref conv t)) in
  activeConversations s !! sid = Some ref /\
  sid ∈ calls (activeCallsRoute (activeConversations s)).
Proof.
  intros Hpre Hpost s.
  set (s0 := connect registry ref conv t).
  set (sa := snd (run reencode pre s0)).
  set (sb := snd (step reencode (start_frame sid) sa)).
  assert (Hs : s = snd (run reencode post sb)).
  { unfold s. rewrite run_app. cbn [snd]. by rewrite run_cons. }
  assert (Hra : registered sa).
  { apply (run_invariant reencode registered (fun ev => negb (is_close ev)));
      [apply step_registered|done|apply connect_registered]. }
  assert (Hrefb : conversation_ref sb = ref).
  { unfold sb, sa. by rewrite step_conversation_ref, run_conversation_ref. }
  assert (Hrb : registered sb) by (by apply step_registered).
  assert (Hkb : activeConversations sb !! sid = Some (conversation_ref sb)).
  { rewrite Hrefb. unfold sb. rewrite start_frame_step. simpl.
    rewrite lookup_insert_eq. f_equal.
    unfold sa. by rewrite run_conversation_ref. }
  destruct (run_keeps_entry post sb sid Hpost Hrb Hkb) as [_ Hk].
  rewrite <- Hs, Hrefb in Hk. split; [done|].
  apply activeCallsRoute_spec. by rewrite Hk.
Qed.

(** X12: a started call stays listed as long as its telephony socket is
    open.  Whatever [streamSid] a start frame set, empty or not, the
    conversation is registered under it and [/active-calls] lists it after
    any further events short of the telephony close: no amount of time,
    no later start frame, and no close or error of the OpenAI socket removes
    it. *)
Theorem started_call_stays_listed registry ref (conv : Conv) t pre sid post :
  no_close pre = true ->
  no_close post = true ->
  let s := snd (run reencode (pre ++ start_frame sid :: post)
                    (connect registry ref conv t)) in
  activeConversations s !! sid = Some ref /\
  sid ∈ calls (activeCallsRoute (activeConversations s)).
Proof. apply run_started_entry. Qed.

(** X13: eviction removes at most one entry.  If, when the telephony socket
    closes, the connection's [streamSid] is no longer [k] (a later start
    frame changed it), or if [k] is the empty string, then the entry a start
    frame made under [k] is never removed: the conversation stays registered
    under [k], and listed, at every later time. *)
Theorem eviction_spares_every_other_entry
    registry ref (conv : Conv) t pre k post after :
  no_close pre = true ->
  no_close post = true ->
  no_connection_message after = true ->
  let open := snd (run reencode (pre ++ start_frame k :: post)
                       (connect registry ref conv t)) in
  let later := snd (run reencode (ConnectionClose :: after) open) in
  streamSid open <> Some k \/ k = EmptyString ->
  activeConversations later !! k = Some ref /\
  k ∈ calls (activeCallsRoute (activeConversations later)).
Proof.
  intros Hpre Hpost Hafter open later Hk.
  destruct (run_started_entry registry ref conv t pre k post Hpre Hpost) as [Hreg _].
  fold open in Hreg.
  assert (Hlater : activeConversations later !! k = Some ref).
  { unfold later. rewrite run_registry_after_close; [done| |done].
    simpl. exact Hafter. }
  split; [done|]. apply activeCallsRoute_spec. by rewrite Hlater.
Qed.

(** ** Configuring the session *)

Lemma pending_inits_schedule_evict (t : N) (q : list (N * Callback)) :
  pending_inits (schedule (t, EvictConversation) q) = pending_inits q.
Proof.
  unfold pending_inits. induction q as [|[d cb] q IH]; simpl; [done|].
  destruct (t <? d)%N; simpl; [done|].
  destruct cb; simpl; by rewrite IH.
Qed.

Lemma pending_inits_none (q : list (N * Callback)) :
  pending_inits q = 0%nat -> forall d, ~ In (d, InitializeSession) q.
Proof.
  unfold pending_inits. induction q as [|[d' cb] q IH]; simpl; [by intros _ d []|].
  destruct cb; simpl; [done|].
  intros Hq d [Hd|Hd]; [done|]. by apply (IH Hq d).
Qed.

(** Before any [initializeSession] is due, none runs and all stay. *)
Lemma fired_inits_early (t : N) (q : list (N * Callback)) :
  (forall d, In (d, InitializeSession) q -> (t < d)%N) ->
  fired_inits t q = 0%nat /\ pending_inits (remaining t q) = pending_inits q.
Proof.
  unfold pending_inits. induction q as [|[d cb] q IH]; simpl; [done|].
  intros Hq. destruct (d <=? t)%N eqn:E; [|done]. apply N.leb_le in E.
  destruct cb.
  - specialize (Hq d (or_introl eq_refl)). lia.
  - simpl. apply IH. intros d' Hd'. apply Hq. by right.
Qed.

(** Once all of them are due, all run and none stays. *)
Lemma fired_inits_late (t : N) (q : list (N * Callback)) :
  by_due_time q ->
  (forall d, In (d, InitializeSession) q -> (d <= t)%N) ->
  fired_inits t q = pending_inits q /\ pending_inits (remaining t q) = 0%nat.
Proof.
  unfold pending_inits. induction q as [|[d cb] q IH]; simpl; [done|].
  intros [Hhead Hsorted] Hq.
  assert (Hrest : forall d', In (d', InitializeSession) q -> (d' <= t)%N)
    by (intros d' Hd'; apply Hq; by right).
  destruct (IH Hsorted Hrest) as [A1 A2].
  destruct (d <=? t)%N eqn:E.
  - destruct cb; simpl; by rewrite A1, A2.
  - apply N.leb_gt in E.
    assert (Hnone : length (List.filter
                      (fun x => match snd x with InitializeSession => true | _ => false end)
                      ((d, cb) :: q)) = 0%nat).
    { assert (Hall : forall x, In x ((d, cb) :: q) ->
                match snd x with InitializeSession => true | _ => false end = false).
      { intros [d' cb'] Hin. destruct cb'; [|done]. simpl.
        specialize (Hq d' Hin).
        destruct Hin as [Heq|Hin].
        - injection Heq as -> _. lia.
        - specialize (Hhead _ Hin). simpl in Hhead. lia. }
      clear -Hall. induction ((d, cb) :: q) as [|x l IHl]; [done|].
      simpl. rewrite (Hall x (or_introl eq_refl)). apply IHl.
      intros y Hy. apply Hall. by right. }
    simpl in Hnone. by rewrite Hnone.
Qed.

Lemma session_updates_replicate (n : nat) :
  List.filter is_session_update (replicate n SessionUpdate) = replicate n SessionUpdate.
Proof. induction n as [|n IH]; simpl; [done|]. by rewrite IH. Qed.

Lemma step_configuring (due : N) (sent : nat) ev s :
  negb (is_openai_open ev) = true ->
  configuring due sent s ->
  configuring due (sent + length (session_updates (fst (step reencode ev s))))
              (snd (step reencode ev s)).
Proof.
  intros Hev [Hsorted Hphase].
  destruct ev; try done.
  - (* an OpenAI message *)
    pose proof (onOpenAiMessage_frame reencode data s) as (_ & _ & _ & A4 & A5 & _).
    pose proof (onOpenAiMessage_sends data s) as (_ & B2 & _).
    cbn [step]. rewrite B2. simpl in A4, A5. unfold configuring.
    rewrite A4, A5, Nat.add_0_r. done.
  - (* the OpenAI socket closes *)
    cbn [step]. unfold configuring. simpl. by rewrite Nat.add_0_r.
  - (* an error on the OpenAI socket *)
    cbn [step]. unfold configuring. simpl. by rewrite Nat.add_0_r.
  - (* a telephony message *)
    pose proof (onConnectionMessage_frame message s) as (_ & A2 & A3 & _).
    pose proof (onConnectionMessage_sends message s) as (_ & B2 & _).
    cbn [step]. unfold session_updates. rewrite B2. unfold configuring.
    rewrite A2, A3.
    assert (Hnone : List.filter is_session_update
              (if is_open (openAiWs s)
               then InputAudioBufferAppend <$>
                      option_list (media_payload (ConnectionMessage message))
               else []) = []).
    { destruct (is_open (openAiWs s)); [|done].
      by destruct (media_payload (ConnectionMessage message)). }
    rewrite Hnone. simpl. by rewrite Nat.add_0_r.
  - (* the telephony socket closes *)
    assert (Hs : snd (step reencode ConnectionClose s) =
                 setTimeout EvictConversation EVICTION_DELAY
                   (snd (if is_open (openAiWs s)
                         then ([OpenAiCloseCall],
                               set_openAiWs CLOSING (set_connection CLOSED s))
                         else ([], set_connection CLOSED s))) /\
                 session_updates (fst (step reencode ConnectionClose s)) = []).
    { cbn [step]. unfold onConnectionClose. simpl.
      by destruct (is_open (openAiWs s)). }
    destruct Hs as [-> ->].
    assert (Hfields : forall b : bool,
      let s1 := snd (if b
                     then ([OpenAiCloseCall],
                           set_openAiWs CLOSING (set_connection CLOSED s))
                     else (@nil Effect, set_connection CLOSED s)) in
      timers s1 = timers s /\ now s1 = now s) by (by intros []).
    destruct (Hfields (is_open (openAiWs s))) as [B1 B2].
    unfold configuring, setTimeout. simpl. rewrite B1, B2, Nat.add_0_r.
    rewrite pending_inits_schedule_evict.
    split; [by apply schedule_by_due_time|].
    destruct Hphase as [(Hn & Hp & Hu & Hz)|Hlate]; [left|by right].
    repeat split; try done.
    intros d Hd. apply schedule_In in Hd as [[=]|Hd]. by apply Hu.
  - (* time passes *)
    cbn [step]. unfold elapse.
    pose proof (fire_frame (now s + ms) (timers s) s) as (_ & _ & A3 & _).
    pose proof (fire_timers (now s + ms) (timers s) s eq_refl) as A4.
    pose proof (fire_sends (now s + ms) (timers s) s) as [A5 _].
    destruct (fire (now s + ms) (timers s) s) as [e s']. cbn [fst snd] in *.
    unfold configuring, session_updates. simpl. rewrite A4, A5.
    rewrite session_updates_replicate, length_replicate.
    split; [by apply remaining_by_due_time|].
    destruct Hphase as [(Hn & Hp & Hu & ->)|(Hn & Hp & ->)].
    + destruct (N.lt_ge_cases (now s + ms) due) as [Hearly|Hlate].
      * left.
        destruct (fired_inits_early (now s + ms) (timers s)) as [C1 C2].
        { intros d Hd. by rewrite (Hu d Hd). }
        rewrite C1, C2. repeat split; try done.
        intros d Hd. apply Hu. by apply remaining_In in Hd.
      * right.
        destruct (fired_inits_late (now s + ms) (timers s) Hsorted) as [C1 C2].
        { intros d Hd. by rewrite (Hu d Hd). }
        rewrite C1, C2, Hp. by repeat split.
    + right.
      destruct (fired_inits_early (now s + ms) (timers s)) as [C1 C2].
      { intros d Hd. by destruct (pending_inits_none _ Hp d). }
      rewrite C1, C2. repeat split; try done. lia.
Qed.

Lemma run_configuring (due : N) (sent : nat) evs s :
  no_openai_open evs = true ->
  configuring due sent s ->
  configuring due (sent + length (session_updates (fst (run reencode evs s))))
              (snd (run reencode evs s)).
Proof.
  revert sent s. induction evs as [|ev evs IH]; intros sent s Hno Hc.
  { simpl. by rewrite Nat.add_0_r. }
  simpl in Hno. apply andb_true_iff in Hno as [Hev Hevs].
  rewrite run_cons. cbn [fst snd].
  rewrite session_updates_app, length_app, Nat.add_assoc.
  apply IH; [done|]. by apply step_configuring.
Qed.

(** X14: the session is configured once, 100 ms after the OpenAI socket
    opens.  On a new connection, if the socket opens once, then after any
    further events exactly one [session.update] has been sent if 100 ms or
    more have passed since, and none if less: whatever else happens in
    between, including the close of either socket. *)
Theorem session_update_once_after_100ms registry ref (conv : Conv) t evs :
  no_openai_open evs = true ->
  session_updates
    (fst (run reencode (OpenAiOpen :: evs) (connect registry ref conv t)))
  = if (INIT_DELAY <=? elapsed evs)%N then [SessionUpdate] else [].
Proof.
  intros Hno. rewrite run_cons. cbn [fst snd step].
  set (s1 := snd (onOpenAiOpen (connect registry ref conv t))).
  assert (Hc : configuring (t + INIT_DELAY) 0 s1).
  { unfold configuring, s1, INIT_DELAY. simpl. split; [by split|].
    left. repeat split; try lia; try done.
    intros d [[=]|[]]. done. }
  pose proof (run_configuring _ _ evs s1 Hno Hc) as [_ Hphase].
  rewrite run_now in Hphase.
  assert (Hnow : now s1 = t) by done. rewrite Hnow in Hphase.
  rewrite session_updates_app. simpl (session_updates _ ++ _).
  assert (Hall : session_updates (fst (run reencode evs s1))
                 = replicate (length (session_updates (fst (run reencode evs s1))))
                             SessionUpdate).
  { unfold session_updates.
    induction (sent_to_openai (fst (run reencode evs s1))) as [|c l IHl]; [done|].
    simpl. destruct c; simpl; try done. by rewrite <- IHl. }
  rewrite Hall.
  destruct Hphase as [(Hn & _ & _ & Hz)|(Hn & _ & Hz)]; simpl in Hz; rewrite Hz.
  - assert (Hlt : (INIT_DELAY <=? elapsed evs)%N = false)
      by (apply N.leb_gt; lia).
    by rewrite Hlt.
  - assert (Hle : (INIT_DELAY <=? elapsed evs)%N = true)
      by (apply N.leb_le; lia).
    by rewrite Hle.
Qed.

(** ** What Twilio receives *)

Lemma handleSpeechStartedEvent_twilio s :
  sent_to_twilio (fst (handleSpeechStartedEvent s)) = [] \/
  sent_to_twilio (fst (handleSpeechStartedEvent s)) = [ClearFrame (streamSid s)].
Proof.
  unfold handleSpeechStartedEvent.
  destruct (markQueue s) as [|tok q]; [by left|].
  destruct (responseStartTimestampTwilio s) as [r|]; [|by left].
  right. unfold timing_log, SHOW_TIMING_MATH. simpl.
  destruct (lastAssistantItem s) as [item|]; [|done].
  by destruct (negb (String.eqb item EmptyString)).
Qed.

Lemma onOpenAiMessage_tags data s :
  Forall (fun f => frame_streamSid f = streamSid s)
         (sent_to_twilio (fst (onOpenAiMessage reencode data s))).
Proof.
  unfold onOpenAiMessage. destruct data as [|response]; [constructor|].
  destruct (processEvent (conversation s) response) as [conv [|item]].
  { simpl. rewrite log_received_twilio. constructor. }
  set (s0 := set_conversation conv s).
  assert (H1 : exists e1 s1,
    (match delta response with
     | Some d => if String.eqb (type response) "response.audio.delta" && truthy (Some d)
                 then onAudioDelta reencode d item s0 else ([], s0)
     | None => ([], s0)
     end) = (e1, s1) /\
    streamSid s1 = streamSid s /\
    Forall (fun f => frame_streamSid f = streamSid s) (sent_to_twilio e1)).
  { destruct (delta response) as [d|]; [|eexists _, _; by repeat split].
    destruct (_ && _); [|eexists _, _; by repeat split].
    pose proof (onAudioDelta_spec reencode d item s0) as Hspec.
    destruct (onAudioDelta reencode d item s0) as [e1 s1].
    destruct Hspec as (Htw & _ & _ & _ & _ & _ & Hsd & _).
    eexists _, _. split; [done|]. split; [done|]. rewrite Htw. simpl.
    constructor; [done|].
    destruct (streamSid s) as [sid|]; simpl; [|constructor].
    destruct (negb (String.eqb sid EmptyString)); by repeat constructor. }
  destruct H1 as (e1 & s1 & -> & Hs1 & He1).
  assert (H2 : Forall (fun f => frame_streamSid f = streamSid s)
                 (sent_to_twilio
                    (fst (if String.eqb (type response)
                                        "input_audio_buffer.speech_started"
                          then handleSpeechStartedEvent s1 else ([], s1))))).
  { destruct (String.eqb (type response) "input_audio_buffer.speech_started");
      [|constructor].
    destruct (handleSpeechStartedEvent_twilio s1) as [->| ->]; [constructor|].
    rewrite Hs1. by repeat constructor. }
  destruct (if String.eqb (type response) "input_audio_buffer.speech_started"
            then handleSpeechStartedEvent s1 else ([], s1)) as [e2 s2].
  cbn [fst] in *. rewrite !sent_to_twilio_app, log_received_twilio. simpl.
  by apply Forall_app.
Qed.

Lemma step_tags ev s :
  Forall (fun f => frame_streamSid f = streamSid s)
         (sent_to_twilio (fst (step reencode ev s))).
Proof.
  destruct (is_openai_message ev) eqn:Hev.
  - destruct ev; try done. apply onOpenAiMessage_tags.
  - rewrite step_twilio_source; [constructor|done].
Qed.

(** X15: every frame the bridge sends to Twilio, media, mark or clear,
    carries the [streamSid] the connection holds at that moment: as long as
    no start frame changes it, all frames of a trace carry the one it started
    with (null before the first start frame). *)
Theorem frames_carry_the_streamSid evs s :
  no_start evs = true ->
  Forall (fun f => frame_streamSid f = streamSid s)
         (sent_to_twilio (fst (run reencode evs s))).
Proof.
  revert s. induction evs as [|ev evs IH]; intros s Hns; [constructor|].
  simpl in Hns. apply andb_true_iff in Hns as [Hev Hevs].
  apply negb_true_iff in Hev.
  rewrite run_cons. cbn [fst]. rewrite sent_to_twilio_app.
  apply Forall_app. split; [apply step_tags|].
  rewrite <- (step_streamSid reencode ev s Hev). by apply IH.
Qed.

Lemma step_medias ev s :
  never_throws Conv ->
  medias (fst (step reencode ev s)) = option_list (delta_out reencode (streamSid s) ev).
Proof.
  intros Htotal. destruct (is_openai_message ev) eqn:Hev.
  2: { unfold medias. rewrite step_twilio_source by done. by destruct ev. }
  destruct ev as [|[|response]| | | | |]; try done. cbn [step delta_out].
  destruct (is_audio_delta response) eqn:Hd.
  - destruct (is_audio_delta_inv response Hd) as (Hty & d & Hdl & Ht).
    destruct (Htotal (conversation s) response) as (conv & item & Hp).
    rewrite (onOpenAiMessage_audio_delta reencode response d conv item s Hty Hdl Ht Hp).
    pose proof (onAudioDelta_spec reencode d item (set_conversation conv s)) as Hspec.
    destruct (onAudioDelta reencode d item (set_conversation conv s)) as [e1 s1].
    destruct Hspec as (Htw & _). cbn [fst]. unfold medias. rewrite Htw, Hdl. simpl.
    destruct (streamSid s) as [sid|]; simpl; [|done].
    by destruct (negb (String.eqb sid EmptyString)).
  - rewrite (onOpenAiMessage_not_delta response s Hd).
    destruct (processEvent (conversation s) response) as [conv [|item]].
    { cbn [fst]. unfold medias. by rewrite log_received_twilio. }
    destruct (String.eqb (type response) "input_audio_buffer.speech_started").
    + cbn [fst]. rewrite medias_app.
      pose proof (handleSpeechStartedEvent_sends (set_conversation conv s))
        as (_ & _ & _ & _ & A5 & _).
      rewrite A5. unfold medias. by rewrite log_received_twilio.
    + cbn [fst]. unfold medias. by rewrite log_received_twilio.
Qed.

(** X16: with a tracker that returns for every event, the audio of OpenAI
    reaches Twilio whole and in order: on a connection whose [streamSid] does
    not change, the media frames sent are exactly the audio deltas received,
    each re-encoded once and tagged with the [streamSid], in the order
    received, whether or not a stream has started.  An event on which the
    tracker raises is dropped: nothing is sent for it and only the tracker
    changes. *)
Theorem deltas_forwarded_in_order :
  (forall evs s,
     never_throws Conv ->
     no_start evs = true ->
     medias (fst (run reencode evs s)) = omap (delta_out reencode (streamSid s)) evs) /\
  (forall response conv s,
     processEvent (conversation s) response = (conv, Threw) ->
     sent_to_twilio (fst (onOpenAiMessage reencode (Parsed response) s)) = [] /\
     sent_to_openai (fst (onOpenAiMessage reencode (Parsed response) s)) = [] /\
     snd (onOpenAiMessage reencode (Parsed response) s) = set_conversation conv s).
Proof.
  split.
  - intros evs s Htotal. revert s.
    induction evs as [|ev evs IH]; intros s Hns; [done|].
    simpl in Hns. apply andb_true_iff in Hns as [Hev Hevs].
    apply negb_true_iff in Hev.
    rewrite run_cons. cbn [fst]. rewrite medias_app, step_medias by done.
    rewrite IH by done. rewrite step_streamSid by done.
    simpl. by destruct (delta_out reencode (streamSid s) ev).
  - intros response conv s Hp. unfold onOpenAiMessage. rewrite Hp. cbn [fst snd].
    by rewrite log_received_twilio, log_received_openai.
Qed.

(** ** How often an interruption can fire *)

Lemma armed_bound s : (armed s <= 1)%nat.
Proof.
  unfold armed. destruct (markQueue s); [lia|].
  destruct (responseStartTimestampTwilio s); lia.
Qed.

Lemma disarmed_armed s : disarmed s <-> armed s = 0%nat.
Proof.
  unfold disarmed, armed. split.
  - intros [-> | ->]; [done|]. by destruct (markQueue s).
  - destruct (markQueue s); [by left|].
    destruct (responseStartTimestampTwilio s); [done|by right].
Qed.

(** An interruption sends at most one clear frame, and if it sends one it
    leaves the guard failing. *)
Lemma handleSpeechStartedEvent_clears s :
  clears (fst (handleSpeechStartedEvent s)) = [] \/
  (length (clears (fst (handleSpeechStartedEvent s))) = 1%nat /\
   armed (snd (handleSpeechStartedEvent s)) = 0%nat).
Proof.
  unfold handleSpeechStartedEvent.
  destruct (markQueue s) as [|tok q]; [by left|].
  destruct (responseStartTimestampTwilio s) as [r|]; [|by left].
  right. unfold timing_log, SHOW_TIMING_MATH. cbn [fst snd app].
  split; [|done].
  rewrite clears_app. destruct (lastAssistantItem s) as [item|]; [|done].
  by destruct (truthy (Some item)).
Qed.

(** So does every event. *)
Lemma step_clears ev s :
  clears (fst (step reencode ev s)) = [] \/
  (length (clears (fst (step reencode ev s))) = 1%nat /\
   armed (snd (step reencode ev s)) = 0%nat).
Proof.
  destruct (is_openai_message ev) eqn:Hev.
  - destruct ev as [|data| | | | |]; try done. cbn [step].
    destruct data as [|response]; [by left|].
    destruct (is_audio_delta response) eqn:Hd.
    + left. apply is_audio_delta_inv in Hd as (Hty & d & Hdl & Ht).
      destruct (processEvent (conversation s) response) as [conv [|item]] eqn:Hp.
      { unfold onOpenAiMessage. rewrite Hp. cbn [fst]. apply clears_log_received. }
      rewrite (onOpenAiMessage_audio_delta reencode response d conv item s Hty Hdl Ht Hp).
      pose proof (onAudioDelta_spec reencode d item (set_conversation conv s)) as Hspec.
      destruct (onAudioDelta reencode d item (set_conversation conv s)) as [e1 s1].
      destruct Hspec as (Htw & _). cbn [fst]. unfold clears. rewrite Htw.
      simpl. by destruct (truthy (streamSid s)).
    + rewrite (onOpenAiMessage_not_delta response s Hd).
      destruct (processEvent (conversation s) response) as [conv [|item]].
      { left. cbn [fst]. apply clears_log_received. }
      destruct (String.eqb (type response) "input_audio_buffer.speech_started").
      * cbn [fst snd]. rewrite clears_app, clears_log_received. cbn [app].
        apply handleSpeechStartedEvent_clears.
      * left. cbn [fst]. apply clears_log_received.
  - left. unfold clears. by rewrite (step_twilio_source ev s Hev).
Qed.

Lemma audio_deltas_one ev :
  (audio_deltas [ev] = 0%nat /\ no_audio_delta [ev] = true) \/
  (audio_deltas [ev] = 1%nat).
Proof.
  unfold audio_deltas, no_audio_delta.
  destruct ev as [|[|response]| | | | |]; simpl; try (by left).
  destruct (is_audio_delta response); [by right|by left].
Qed.

Lemma audio_deltas_cons ev evs :
  audio_deltas (ev :: evs) = (audio_deltas [ev] + audio_deltas evs)%nat.
Proof.
  unfold audio_deltas. simpl.
  by destruct (match ev with
               | OpenAiMessage (Parsed response) => is_audio_delta response
               | _ => false
               end).
Qed.

(** One event: the clear frames it sends, plus one if an interruption can
    fire after it, are at most one if one could fire before it, plus one if
    the event is an audio delta. *)
Lemma step_interruptions ev s :
  (length (clears (fst (step reencode ev s))) + armed (snd (step reencode ev s))
   <= armed s + audio_deltas [ev])%nat.
Proof.
  pose proof (armed_bound (snd (step reencode ev s))) as Hb.
  destruct (audio_deltas_one ev) as [[-> Hno] | ->].
  - destruct (armed s) as [|n] eqn:Ha.
    + apply disarmed_armed in Ha.
      destruct (step_disarmed ev s Ha Hno) as (_ & -> & Hd).
      apply disarmed_armed in Hd. rewrite Hd. simpl. lia.
    + destruct (step_clears ev s) as [-> | [-> ->]]; simpl; lia.
  - destruct (step_clears ev s) as [-> | [-> ->]]; simpl; lia.
Qed.

Lemma run_interruptions evs s :
  (length (clears (fst (run reencode evs s))) + armed (snd (run reencode evs s))
   <= armed s + audio_deltas evs)%nat.
Proof.
  revert s. induction evs as [|ev evs IH]; intros s; [simpl; lia|].
  rewrite run_cons, audio_deltas_cons. cbn [fst snd].
  rewrite clears_app, length_app.
  pose proof (step_interruptions ev s). pose proof (IH (snd (step reencode ev s))).
  lia.
Qed.

(** X7: interruptions are paid for by audio deltas.  Along any trace, the
    clear frames sent (one for each interruption that fires), plus one if
    the guard of [handleSpeechStartedEvent] holds at the end, are at most
    the audio deltas with a payload that the trace delivers, plus one if the
    guard held at the start.  On a new connection the bridge so interrupts
    at most as often as OpenAI has delivered an audio delta. *)
Theorem interruptions_bounded_by_audio_deltas :
  (forall evs s,
     (length (clears (fst (run reencode evs s))) + armed (snd (run reencode evs s))
      <= armed s + audio_deltas evs)%nat) /\
  (forall registry ref (conv : Conv) t evs,
     (length (clears (fst (run reencode evs (connect registry ref conv t))))
      <= audio_deltas evs)%nat).
Proof.
  split; [apply run_interruptions|].
  intros registry ref conv t evs.
  pose proof (run_interruptions evs (connect registry ref conv t)) as Hb.
  change (armed (connect registry ref conv t)) with 0%nat in Hb. lia.
Qed.

End Further.

(** ** The further properties at work *)

Lemma Reporting_never_throws : never_throws unit.
Proof. intros c response. by eexists _, _. Qed.

Lemma audio_forwarded_while_open_witness :
  appends
    (fst (run canonical
            [ media_frame {| timestamp := 1020; payload := "b" |};
              OpenAiMessage (Parsed (audio_delta "I1" "AAAA"));
              OpenAiError;
              media_frame {| timestamp := 1040; payload := "c" |} ] at_1000))
  = media_payloads
      [ media_frame {| timestamp := 1020; payload := "b" |};
        OpenAiMessage (Parsed (audio_delta "I1" "AAAA"));
        OpenAiError;
        media_frame {| timestamp := 1040; payload := "c" |} ].
Proof. apply audio_forwarded_while_open; reflexivity. Defined.

Lemma audio_dropped_until_open_witness :
  appends
    (fst (run canonical
            [ start_frame "CA1";
              media_frame {| timestamp := 20; payload := "a" |};
              Elapse 5 ] fresh)) = [] /\
  is_open
    (openAiWs
       (snd (run canonical
               [ start_frame "CA1";
                 media_frame {| timestamp := 20; payload := "a" |};
                 Elapse 5 ] fresh))) = false.
Proof. apply audio_dropped_until_open; reflexivity. Defined.

Lemma each_side_hears_only_the_other_witness :
  sent_to_twilio
    (fst (run canonical
            [ media_frame {| timestamp := 1020; payload := "b" |};
              mark_ack; ConnectionClose; Elapse 300000 ] playing)) = [] /\
  appends
    (fst (run canonical
            [ OpenAiMessage (Parsed (audio_delta "I1" "AAAA"));
              OpenAiMessage (Parsed speech_started); Elapse 200 ] at_1000)) = [].
Proof.
  destruct (each_side_hears_only_the_other canonical) as [A B].
  split; [apply A|apply B]; reflexivity.
Defined.

Lemma one_mark_per_media_frame_witness :
  length (marks
            (fst (run canonical
                    [ OpenAiMessage (Parsed (audio_delta "I1" "AAAA"));
                      mark_ack;
                      OpenAiMessage (Parsed (audio_delta "I1" "BBBB")) ] at_1000)))
  = length (medias
              (fst (run canonical
                      [ OpenAiMessage (Parsed (audio_delta "I1" "AAAA"));
                        mark_ack;
                        OpenAiMessage (Parsed (audio_delta "I1" "BBBB")) ] at_1000))).
Proof.
  apply (proj2 (one_mark_per_media_frame canonical
                  [ OpenAiMessage (Parsed (audio_delta "I1" "AAAA"));
                    mark_ack;
                    OpenAiMessage (Parsed (audio_delta "I1" "BBBB")) ] at_1000));
    reflexivity.
Defined.

Lemma no_interruption_without_audio_delta_witness :
  truncates
    (fst (run canonical
            [ OpenAiMessage (Parsed speech_started);
              media_frame {| timestamp := 1020; payload := "b" |};
              OpenAiMessage (Parsed speech_started) ] at_1000)) = [] /\
  clears
    (fst (run canonical
            [ OpenAiMessage (Parsed speech_started);
              media_frame {| timestamp := 1020; payload := "b" |};
              OpenAiMessage (Parsed speech_started) ] at_1000)) = [] /\
  disarmed
    (snd (run canonical
            [ OpenAiMessage (Parsed speech_started);
              media_frame {| timestamp := 1020; payload := "b" |};
              OpenAiMessage (Parsed speech_started) ] at_1000)).
Proof.
  apply no_interruption_without_audio_delta; [left|]; reflexivity.
Defined.

Lemma mark_queue_round_trip_witness :
  markQueue
    (snd (run canonical
            (map openai_message [audio_delta "I1" "AAAA"; audio_delta "I1" "BBBB"]
             ++ replicate
                  (length [audio_delta "I1" "AAAA"; audio_delta "I1" "BBBB"])
                  mark_ack) playing))
  = markQueue playing /\
  markQueue (snd (run canonical (replicate 2 mark_ack) at_1000)) = [].
Proof.
  destruct (mark_queue_round_trip canonical) as (_ & B & C).
  split.
  - apply B; [apply Reporting_never_throws|reflexivity| |reflexivity].
    vm_compute. by repeat constructor.
  - apply C. reflexivity.
Defined.

Lemma barge_in_cutoff_witness :
  let e := fst (run canonical
                  (openai_message (audio_delta "I1" "AAAA")
                   :: map media_frame
                        [ {| timestamp := 1400; payload := "b" |};
                          {| timestamp := 1800; payload := "c" |} ]
                   ++ [openai_message speech_started]) at_1000) in
  truncates e =
    [ConversationItemTruncate (id {| id := "I1" |}) 0
       (clock_after [ {| timestamp := 1400; payload := "b" |};
                      {| timestamp := 1800; payload := "c" |} ]
                    (latestMediaTimestamp at_1000)
        - latestMediaTimestamp at_1000)] /\
  clears e = [ClearFrame (streamSid at_1000)].
Proof.
  apply (barge_in_cutoff canonical at_1000 (audio_delta "I1" "AAAA") "AAAA"%string
           tt {| id := "I1" |} speech_started tt None); try reflexivity.
  discriminate.
Defined.

Lemma connection_touches_only_its_own_keys_witness :
  activeConversations
    (snd (run canonical
            [ start_frame "CA1"; ConnectionClose; Elapse 300000 ]
            (connect {[ "CA9"%string := 3%nat ]} 0%nat tt 0%N))) !! "CA9"%string
  = ({[ "CA9"%string := 3%nat ]} : gmap string nat) !! "CA9"%string /\
  activeConversations
    (snd (run canonical
            [ OpenAiOpen; media_frame {| timestamp := 20; payload := "a" |};
              ConnectionClose; Elapse 300000 ]
            (connect {[ "CA9"%string := 3%nat ]} 0%nat tt 0%N)))
  = {[ "CA9"%string := 3%nat ]}.
Proof.
  split.
  - apply (proj1 (connection_touches_only_its_own_keys canonical
                    {[ "CA9"%string := 3%nat ]} 0%nat tt 0%N
                    [ start_frame "CA1"; ConnectionClose; Elapse 300000 ])).
    reflexivity.
  - apply (proj2 (connection_touches_only_its_own_keys canonical
                    {[ "CA9"%string := 3%nat ]} 0%nat tt 0%N
                    [ OpenAiOpen; media_frame {| timestamp := 20; payload := "a" |};
                      ConnectionClose; Elapse 300000 ])).
    reflexivity.
Defined.

Lemma started_call_stays_listed_witness :
  let s := snd (run canonical
                  ([OpenAiOpen] ++ start_frame "CA1"
                   :: [ media_frame {| timestamp := 20; payload := "a" |};
                        OpenAiClose; Elapse 999999 ])
                  (connect ∅ 7%nat tt 0%N)) in
  activeConversations s !! "CA1"%string = Some 7%nat /\
  "CA1"%string ∈ calls (activeCallsRoute (activeConversations s)).
Proof. apply started_call_stays_listed; reflexivity. Defined.

Lemma eviction_spares_every_other_entry_witness :
  let open := snd (run canonical
                     ([OpenAiOpen] ++ start_frame "CA1" :: [start_frame "CA2"])
                     (connect ∅ 7%nat tt 0%N)) in
  let later := snd (run canonical (ConnectionClose :: [Elapse 400000]) open) in
  activeConversations later !! "CA1"%string = Some 7%nat /\
  "CA1"%string ∈ calls (activeCallsRoute (activeConversations later)).
Proof.
  apply (eviction_spares_every_other_entry canonical ∅ 7%nat tt 0%N
           [OpenAiOpen] "CA1"%string [start_frame "CA2"] [Elapse 400000]);
    try reflexivity.
  left. vm_compute. discriminate.
Defined.

Lemma session_update_once_after_100ms_witness :
  session_updates
    (fst (run canonical
            (OpenAiOpen
             :: [ Elapse 50; start_frame "CA1";
                  media_frame {| timestamp := 20; payload := "a" |};
                  Elapse 60; OpenAiClose; Elapse 500 ])
            (connect ∅ 0%nat tt 0%N)))
  = if (INIT_DELAY
          <=? elapsed [ Elapse 50; start_frame "CA1";
                        media_frame {| timestamp := 20; payload := "a" |};
                        Elapse 60; OpenAiClose; Elapse 500 ])%N
    then [SessionUpdate] else [].
Proof. apply session_update_once_after_100ms. reflexivity. Defined.

Lemma frames_carry_the_streamSid_witness :
  Forall (fun f => frame_streamSid f = streamSid at_1000)
    (sent_to_twilio
       (fst (run canonical
               [ OpenAiMessage (Parsed (audio_delta "I1" "AAAA"));
                 media_frame {| timestamp := 1800; payload := "b" |};
                 OpenAiMessage (Parsed speech_started) ] at_1000))).
Proof. apply frames_carry_the_streamSid. reflexivity. Defined.

Lemma deltas_forwarded_in_order_witness :
  medias
    (fst (run canonical
            [ OpenAiMessage (Parsed (audio_delta "I1" "AAAA"));
              media_frame {| timestamp := 1800; payload := "b" |};
              OpenAiMessage (Parsed (audio_delta "I1" "BBBB")) ] at_1000))
  = omap (delta_out canonical (streamSid at_1000))
      [ OpenAiMessage (Parsed (audio_delta "I1" "AAAA"));
        media_frame {| timestamp := 1800; payload := "b" |};
        OpenAiMessage (Parsed (audio_delta "I1" "BBBB")) ] /\
  sent_to_twilio
    (fst (@onOpenAiMessage unit Rejecting canonical
            (Parsed {| type := "response.audio.delta"; delta := Some "AAAA"%string;
                       item_id := None |}) at_1000)) = [].
Proof.
  split.
  - apply (proj1 (deltas_forwarded_in_order canonical));
      [apply Reporting_never_throws|reflexivity].
  - apply (proj2 (@deltas_forwarded_in_order unit Rejecting canonical)
             {| type := "response.audio.delta"; delta := Some "AAAA"%string;
                item_id := None |} tt at_1000 eq_refl).
Defined.

(** * The first scenario of the specification *)

Section ScenarioZero.

Context {Conv : Type} `{RealtimeConversation Conv}.
Variable reencode : string -> string.

Implicit Types (s : State Conv) (evs : list Event).

(** ** Without an item there is nothing to truncate *)

(** An interruption cuts nothing off while no assistant item is recorded. *)
Lemma handleSpeechStartedEvent_no_item s :
  truthy (lastAssistantItem s) = false ->
  truncates (fst (handleSpeechStartedEvent s)) = [].
Proof.
  intros Hno. unfold handleSpeechStartedEvent.
  destruct (markQueue s) as [|tok q]; [done|].
  destruct (responseStartTimestampTwilio s) as [r|]; [|done].
  unfold timing_log, SHOW_TIMING_MATH.
  destruct (lastAssistantItem s) as [item|]; [|done].
  by rewrite Hno.
Qed.

(** No message from OpenAI makes the bridge send a truncate command while no
    assistant item is recorded: the audio delta that records one sends
    nothing to OpenAI, and a message is not both an audio delta and a
    speech-started event. *)
Lemma onOpenAiMessage_no_item data s :
  truthy (lastAssistantItem s) = false ->
  truncates (fst (onOpenAiMessage reencode data s)) = [].
Proof.
  intros Hno. destruct data as [|response]; [done|].
  destruct (is_audio_delta response) eqn:Hd.
  - apply is_audio_delta_inv in Hd as (Hty & d & Hdl & Ht).
    destruct (processEvent (conversation s) response) as [conv [|item]] eqn:Hp.
    { unfold onOpenAiMessage. rewrite Hp. cbn [fst]. apply truncates_log_received. }
    rewrite (onOpenAiMessage_audio_delta reencode response d conv item s Hty Hdl Ht Hp).
    pose proof (onAudioDelta_spec reencode d item (set_conversation conv s)) as Hspec.
    destruct (onAudioDelta reencode d item (set_conversation conv s)) as [e1 s1].
    destruct Hspec as (_ & Hop & _). cbn [fst].
    unfold truncates. by rewrite Hop.
  - rewrite (onOpenAiMessage_not_delta reencode response s Hd).
    destruct (processEvent (conversation s) response) as [conv [|item]].
    { cbn [fst]. apply truncates_log_received. }
    destruct (String.eqb (type response) "input_audio_buffer.speech_started").
    + cbn [fst]. rewrite truncates_app, truncates_log_received.
      by apply handleSpeechStartedEvent_no_item.
    + cbn [fst]. apply truncates_log_received.
Qed.

(** A message for which the tracker returns no item, or raises, records no
    assistant item. *)
Lemma onOpenAiMessage_without_item response s :
  (forall conv it, processEvent (conversation s) response <> (conv, Returned (Some it))) ->
  truthy (lastAssistantItem s) = false ->
  truthy (lastAssistantItem (snd (onOpenAiMessage reencode (Parsed response) s))) = false.
Proof.
  intros Hnone Hno.
  destruct (is_audio_delta response) eqn:Hd.
  - apply is_audio_delta_inv in Hd as (Hty & d & Hdl & Ht).
    destruct (processEvent (conversation s) response) as [conv [|item]] eqn:Hp.
    { unfold onOpenAiMessage. by rewrite Hp. }
    destruct item as [it|]; [by destruct (Hnone conv it)|].
    rewrite (onOpenAiMessage_audio_delta reencode response d conv None s Hty Hdl Ht Hp).
    pose proof (onAudioDelta_spec reencode d None (set_conversation conv s)) as Hspec.
    destruct (onAudioDelta reencode d None (set_conversation conv s)) as [e1 s1].
    destruct Hspec as (_ & _ & _ & Hit & _). cbn [snd]. by rewrite Hit.
  - rewrite (onOpenAiMessage_not_delta reencode response s Hd).
    destruct (processEvent (conversation s) response) as [conv [|item]]; [done|].
    destruct (String.eqb (type response) "input_audio_buffer.speech_started");
      [|done].
    cbn [snd]. unfold handleSpeechStartedEvent. simpl.
    destruct (markQueue s) as [|tok q]; [done|].
    by destruct (responseStartTimestampTwilio s).
Qed.

(** The scenario, for any tracker: after a start frame and a media frame, a
    message for which the tracker returns no item and whatever message
    follows it send no truncate command, provided no assistant item was
    recorded before. *)
Lemma scenario_without_item s sid m response heard :
  truthy (lastAssistantItem s) = false ->
  (forall conv it, processEvent (conversation s) response <> (conv, Returned (Some it))) ->
  truncates (fst (run reencode
                    [ start_frame sid; media_frame m;
                      OpenAiMessage (Parsed response);
                      OpenAiMessage (Parsed heard) ] s)) = [].
Proof.
  intros Hno Hnone.
  rewrite !run_cons. cbn [run fst snd].
  rewrite start_frame_step. cbn [fst snd].
  rewrite media_frame_step. cbn [fst snd].
  match goal with |- context [step reencode (OpenAiMessage (Parsed response)) ?st] =>
    set (s0 := st) end.
  assert (Hno0 : truthy (lastAssistantItem s0) = false) by exact Hno.
  assert (Hnone0 : forall conv it,
             processEvent (conversation s0) response <> (conv, Returned (Some it)))
    by exact Hnone.
  cbn [step].
  rewrite !truncates_app.
  rewrite (onOpenAiMessage_no_item (Parsed response) s0 Hno0).
  rewrite (onOpenAiMessage_no_item (Parsed heard) _
             (onOpenAiMessage_without_item response s0 Hnone0 Hno0)).
  by destruct (is_open _).
Qed.

(** The timers leave the tracker and the recorded item alone. *)
Lemma fire_tracker (t : N) (q : list (N * Callback)) s :
  conversation (snd (fire t q s)) = conversation s /\
  lastAssistantItem (snd (fire t q s)) = lastAssistantItem s.
Proof.
  revert s. induction q as [|[due cb] q IH]; intros s; simpl; [done|].
  destruct (due <=? t)%N; [|done].
  assert (Hcb : conversation (snd (runCallback cb (set_timers q s))) = conversation s /\
                lastAssistantItem (snd (runCallback cb (set_timers q s)))
                = lastAssistantItem s).
  { destruct cb; simpl; [done|].
    destruct (streamSid s) as [sid|]; [|done].
    by destruct (negb (String.eqb sid EmptyString)). }
  destruct (runCallback cb (set_timers q s)) as [e1 s1]. cbn [snd] in Hcb.
  destruct Hcb as [A1 A2]. destruct (IH s1) as [B1 B2].
  destruct (fire t q s1) as [e2 s2]. cbn [snd] in *. split; congruence.
Qed.

(** Only a message from OpenAI reaches the tracker or records an item. *)
Lemma step_tracker ev s :
  is_openai_message ev = false ->
  conversation (snd (step reencode ev s)) = conversation s /\
  lastAssistantItem (snd (step reencode ev s)) = lastAssistantItem s.
Proof.
  intros Hev. destruct ev as [|data| | |message| |ms]; cbn [step]; try done.
  - unfold onConnectionMessage. destruct message as [|data]; [done|].
    destruct (String.eqb (event data) "media"); [by destruct (media data)|].
    destruct (String.eqb (event data) "start"); [by destruct (start data)|].
    destruct (String.eqb (event data) "mark"); [|done].
    by destruct (markQueue s).
  - unfold onConnectionClose. simpl. by destruct (is_open (openAiWs s)).
  - unfold elapse. pose proof (fire_tracker (now s + ms) (timers s) s) as Hf.
    by destruct (fire (now s + ms) (timers s) s).
Qed.

Lemma run_tracker evs s :
  no_openai_message evs = true ->
  conversation (snd (run reencode evs s)) = conversation s /\
  lastAssistantItem (snd (run reencode evs s)) = lastAssistantItem s.
Proof.
  intros Hno.
  apply (run_invariant reencode
           (fun s' => conversation s' = conversation s /\
                      lastAssistantItem s' = lastAssistantItem s)
           (fun ev => negb (is_openai_message ev))); [|exact Hno|done].
  intros ev s' Hev [A1 A2]. apply negb_true_iff in Hev.
  destruct (step_tracker ev s' Hev) as [B1 B2]. split; congruence.
Qed.

End ScenarioZero.

(** The tracker of the specification never raises. *)
Lemma Tracker_never_throws : never_throws Transcript.
Proof.
  intros c response. unfold processEvent, Tracker, track.
  destruct (item_id response) as [i|]; [|by eexists _, _].
  destruct (kind_of (type response)); destruct (lookup_item i c);
    by eexists _, _.
Qed.

(** It returns no item for an audio delta that names an item it does not
    know, and leaves the transcript as it is. *)
Lemma Tracker_unknown_audio_delta (c : Transcript) (i d : string) :
  lookup_item i c = None ->
  processEvent c (audio_delta i d) = (c, Returned None).
Proof. intros Hi. unfold processEvent, Tracker, track. simpl. by rewrite Hi. Qed.

(** C6: with the tracker of the specification, the frames start for "CA1",
    media stamped 0, the audio delta for item "I1" and speech-started make
    the bridge send no truncate command to OpenAI, whatever the payloads
    are: on every connection with no assistant item recorded (no response in
    flight) and to whose tracker the item "I1" is not known; and so on every
    new connection, whatever came before the four frames, as long as it was
    no message from OpenAI (the socket opening, timers, frames from the
    caller). *)
Theorem scenario_zero_sends_no_truncate (reencode : string -> string) :
  (forall (s : State Transcript) (d p : string),
     truthy (lastAssistantItem s) = false ->
     lookup_item "I1" (conversation s) = None ->
     truncates (fst (run reencode
                       [ start_frame "CA1";
                         media_frame {| timestamp := 0; payload := p |};
                         OpenAiMessage (Parsed (audio_delta "I1" d));
                         OpenAiMessage (Parsed speech_started) ] s)) = []) /\
  (forall registry ref t pre (d p : string),
     no_openai_message pre = true ->
     truncates (fst (run reencode
                       [ start_frame "CA1";
                         media_frame {| timestamp := 0; payload := p |};
                         OpenAiMessage (Parsed (audio_delta "I1" d));
                         OpenAiMessage (Parsed speech_started) ]
                       (snd (run reencode pre
                               (connect registry ref new_conversation t)))))
     = []).
Proof.
  assert (Hgen : forall (s : State Transcript) (d p : string),
             truthy (lastAssistantItem s) = false ->
             lookup_item "I1" (conversation s) = None ->
             truncates (fst (run reencode
                               [ start_frame "CA1";
                                 media_frame {| timestamp := 0; payload := p |};
                                 OpenAiMessage (Parsed (audio_delta "I1" d));
                                 OpenAiMessage (Parsed speech_started) ] s)) = []).
  { intros s d p Hno Hunknown. apply scenario_without_item; [done|].
    intros conv it. by rewrite (Tracker_unknown_audio_delta _ _ _ Hunknown). }
  split; [exact Hgen|].
  intros registry ref t pre d p Hpre.
  destruct (run_tracker reencode pre (connect registry ref new_conversation t) Hpre)
    as [Hc Hi].
  apply Hgen; [by rewrite Hi|by rewrite Hc].
Qed.

Lemma scenario_zero_sends_no_truncate_witness :
  truncates (fst (run canonical scenario_zero listening)) = [] /\
  truncates (fst (run canonical scenario_zero
                    (snd (run canonical
                              [ OpenAiOpen; Elapse 100;
                                media_frame {| timestamp := 40; payload := "z" |} ]
                              (connect ∅ 0%nat new_conversation 0%N))))) = [].
Proof.
  destruct (scenario_zero_sends_no_truncate canonical) as [A B].
  split.
  - apply (A listening "AAAA"%string "a"%string); reflexivity.
  - apply (B ∅ 0%nat 0%N
             [ OpenAiOpen; Elapse 100%N;
               media_frame {| timestamp := 40; payload := "z" |} ]
             "AAAA"%string "a"%string).
    reflexivity.
Defined.

(** What the scenario does send, and the state it leaves: the caller's audio
    goes to OpenAI; the delta is forwarded and marked, and the interruption
    clears it; nothing is left in flight, and the tracker has learnt
    nothing. *)
Example scenario_zero_transitions :
  let '(e, s') := run canonical scenario_zero listening in
  sent_to_openai e = [InputAudioBufferAppend "a"] /\
  sent_to_twilio e = [ MediaFrame (Some "CA1"%string) "AAAA";
                       MarkFrame "CA1" "responsePart";
                       ClearFrame (Some "CA1"%string) ] /\
  markQueue s' = [] /\ lastAssistantItem s' = None /\
  responseStartTimestampTwilio s' = None /\
  conversation s' = new_conversation.
Proof. vm_compute. by repeat split. Qed.

(** Had OpenAI announced the item first, the tracker would return it for the
    delta, and the same frames would end in a truncate command for "I1" with
    cut-off 0. *)
Example announced_item_is_truncated_at_zero :
  truncates (fst (run canonical
                    (OpenAiMessage (Parsed (item_created "I1")) :: scenario_zero)
                    listening))
  = [ConversationItemTruncate "I1" 0 0].
Proof. reflexivity. Qed.
